(** * phc2sys: the clock-discipline core of [phc2sys.c]

    A shallow embedding of the servo, the two offset samplers, the two
    clock-adjustment helpers and the control loop of [phc2sys.c], followed
    by the properties proved about them.

    Conventions of the embedding.

    - C integers are values of [Z]; every operation that can leave the range
      of its C type is followed by the reduction the machine performs
      ([to_s64], [to_u64]).  The target is LP64 Linux: [long], [long long],
      [time_t] and [int64_t] are 64-bit two's complement, [int] and
      [clockid_t] are 32 bits.
    - C [double] is the primitive binary64 type [float]; [+], [*] and
      unary [-] are the IEEE-754 operations with round-to-nearest-even,
      evaluated one operation at a time in source order.
    - System calls are not executed.  What a call returns is an argument of
      the function that makes it, and what the program submits or prints is
      returned as a list of [event]s in program order. *)

From Stdlib Require Import ZArith Lia List Bool String.
From Stdlib Require Import Floats.
Import ListNotations.

Set Warnings "-inexact-float".
Local Open Scope Z_scope.

(** ** Machine integers *)

Module Int64.

Definition modulus : Z := 2 ^ 64.
Definition half_modulus : Z := 2 ^ 63.
Definition min_signed : Z := - half_modulus.
Definition max_signed : Z := half_modulus - 1.
Definition max_unsigned : Z := modulus - 1.

(** Value of a 64-bit pattern read as [uint64_t]. *)
Definition to_u64 (z : Z) : Z := z mod modulus.

(** Value of a 64-bit pattern read as [int64_t] (two's complement). *)
Definition to_s64 (z : Z) : Z := (z + half_modulus) mod modulus - half_modulus.

Definition in_s64 (z : Z) : Prop := min_signed <= z <= max_signed.
Definition in_u64 (z : Z) : Prop := 0 <= z <= max_unsigned.

(** Two integers denote the same 64-bit pattern. *)
Definition same_bits (a b : Z) : Prop := a mod modulus = b mod modulus.

End Int64.

Import Int64.

(** ** Constants of the program *)

Definition KP : float := 0.7%float.
Definition KI : float := 0.3%float.
Definition NS_PER_SEC : Z := 1000000000.

Definition max_ppb : Z := 512000.
Definition min_ppb : Z := -512000.

(** Modelled from the spec: [missing.h], which defines [CLOCK_INVALID], is
    not among the sources at hand; the spec requires an invalid handle to
    be a value no valid handle has.  Nothing below depends on the value
    chosen beyond that. *)
Definition CLOCK_INVALID : Z := -1.

(** Constants of the Linux system headers. *)
Definition CLOCK_REALTIME : Z := 0.
Definition ADJ_FREQUENCY : Z := 0x0002.
Definition ADJ_SETOFFSET : Z := 0x0100.
Definition ADJ_NANO : Z := 0x2000.

(** ** Conversions between integers and [double] *)

Module Double.

(** [(double) z]: the binary64 value nearest to [z], ties to even. *)
Definition of_Z (z : Z) : float :=
  SF2Prim (binary_normalize prec emax z 0 false).

(** Integral part of a finite value, fraction discarded (toward zero);
    [None] for infinities and NaN. *)
Definition SFtrunc (x : spec_float) : option Z :=
  match x with
  | S754_zero _ => Some 0
  | S754_finite s m e =>
      Some (cond_Zopp s
              (match e with
               | Zneg p => Z.shiftr (Zpos m) (Zpos p)
               | _ => Z.shiftl (Zpos m) e
               end))
  | S754_infinity _ | S754_nan => None
  end.

(** [(long) x].  C defines the conversion only when the integral part is
    representable in the target type; [None] is every other case. *)
Definition to_long (x : float) : option Z :=
  match SFtrunc (Prim2SF x) with
  | Some z => if (min_signed <=? z) && (z <=? max_signed) then Some z else None
  | None => None
  end.

(** [x] is finite and its exact value is the integer [z]. *)
Definition represents (x : float) (z : Z) : Prop :=
  match Prim2SF x with
  | S754_zero _ => z = 0
  | S754_finite s m e =>
      cond_Zopp s (Zpos m) * 2 ^ Z.max e 0 = z * 2 ^ Z.max (- e) 0
  | S754_infinity _ | S754_nan => False
  end.

End Double.

(** ** Kernel interface *)

(** The fields of [struct timex] the program writes after clearing it. *)
Record timex : Type := mk_timex {
  tx_modes : Z;
  tx_freq : option Z;       (* [None]: no defined value, see [Double.to_long] *)
  tx_time_tv_sec : Z;
  tx_time_tv_usec : Z
}.

Record timespec : Type := mk_timespec {
  tv_sec : Z;
  tv_nsec : Z
}.

Inductive servo_state : Type :=
  SAMPLE_0 | SAMPLE_1 | SAMPLE_2 | SAMPLE_3 | SAMPLE_N.

(** What the program does to the outside world, in program order. *)
Inductive event : Type :=
| Clock_adjtime (clkid : Z) (tx : timex)
| Clock_settime (clkid : Z) (now : option timespec)
| Usleep (usec : Z)
| Print_servo (st : servo_state) (sec nsec : Z) (drift : float)
| Print_pps (offset : Z)
| Print_phc (offset : Z)
| Print_usage
| Stderr (msg : string).

(** ** [clock_ppb] *)

(** [ret] is the value the [clock_adjtime] call returns. *)
Definition clock_ppb (clkid : Z) (ppb : float) (ret : Z) : list event :=
  let tx := {| tx_modes := ADJ_FREQUENCY;
               tx_freq := Double.to_long (ppb * 65.536)%float;
               tx_time_tv_sec := 0;
               tx_time_tv_usec := 0 |} in
  Clock_adjtime clkid tx ::
  (if ret <? 0 then [Stderr "failed to adjust the clock"] else []).

(** ** [clock_step] *)

(** The locals of [clock_step] after the sign has been split off:
    [(sign, ns / NS_PER_SEC, ns % NS_PER_SEC)] with [ns] the magnitude. *)
Definition clock_step_split (ns : Z) : Z * Z * Z :=
  let sign := if ns <? 0 then -1 else 1 in
  let ns := if ns <? 0 then to_s64 (ns * -1) else ns in
  (sign, Z.quot ns NS_PER_SEC, Z.rem ns NS_PER_SEC).

(** The pair written to [tx.time] before the call. *)
Definition clock_step_time (ns : Z) : Z * Z :=
  let '(sign, secs, frac) := clock_step_split ns in
  let sec := sign * secs in
  let usec := sign * frac in
  if usec <? 0 then (sec - 1, usec + 1000000000) else (sec, usec).

Definition clock_step (clkid : Z) (ns : Z) (ret : Z) : list event :=
  let '(sec, usec) := clock_step_time ns in
  let tx := {| tx_modes := Z.lor ADJ_SETOFFSET ADJ_NANO;
               tx_freq := Some 0;
               tx_time_tv_sec := sec;
               tx_time_tv_usec := usec |} in
  Clock_adjtime clkid tx ::
  (if ret <? 0 then [Stderr "failed to step clock"] else []).

(** ** [read_phc] *)

(** [tsrc] and [tdst] are what [clock_gettime] stores for the source and
    the destination clock; [None] is a failing call. *)
Definition read_phc (clkid sysclk : Z) (rdelay : Z)
    (tsrc tdst : option timespec) : option (Z * Z) * list event :=
  if clkid =? CLOCK_INVALID then (None, [])
  else
    match tsrc with
    | None => (None, [Stderr "clock_gettime"])
    | Some tsrc =>
        match tdst with
        | None => (None, [Stderr "clock_gettime"])
        | Some tdst =>
            let dst_ns := to_s64 (tv_sec tdst * NS_PER_SEC) in
            let src_ns := to_s64 (tv_sec tsrc * NS_PER_SEC) in
            let offset :=
              to_s64 (to_s64 (to_s64 (to_s64 (dst_ns - src_ns)
                                      + tv_nsec tdst)
                              - tv_nsec tsrc)
                      - rdelay) in
            let ts := to_u64 (to_s64 (dst_ns + tv_nsec tdst)) in
            (Some (offset, ts), [])
        end
    end.

(** ** The servo *)

Record servo : Type := mk_servo {
  last_ts : Z;
  drift : float;
  state : servo_state
}.

(** [static struct servo servo;] is zero-initialised. *)
Definition servo_init : servo :=
  {| last_ts := 0; drift := 0%float; state := SAMPLE_0 |}.

Definition set_state (srv : servo) (st : servo_state) : servo :=
  {| last_ts := last_ts srv; drift := drift srv; state := st |}.

Definition set_drift (srv : servo) (d : float) : servo :=
  {| last_ts := last_ts srv; drift := d; state := state srv |}.

Definition set_last_ts (srv : servo) (ts : Z) : servo :=
  {| last_ts := ts; drift := drift srv; state := state srv |}.

(** The [SAMPLE_2] computation of [offset] from the two timestamps. *)
Definition interval_offset (last ts : Z) : Z :=
  let delta := to_s64 (to_u64 (ts - last)) in
  to_s64 (delta - NS_PER_SEC).

(** The [SAMPLE_N] value of [ppb] before it is compared with the limits. *)
Definition pi_ki_term (ki : float) (offset : Z) : float :=
  (ki * Double.of_Z offset)%float.

Definition pi_ppb (kp ki d : float) (offset : Z) : float :=
  (kp * Double.of_Z offset + d + pi_ki_term ki offset)%float.

(** [ret] is the value returned by the one [clock_adjtime] call the servo
    makes, when it makes one. *)
Definition do_servo (srv : servo) (src dst : Z) (offset ts : Z)
    (kp ki : float) (ret : Z) : servo * list event :=
  let line :=
    Print_servo (state srv) (ts / NS_PER_SEC) (ts mod NS_PER_SEC) (drift srv) in
  let '(srv1, out) :=
    match state srv with
    | SAMPLE_0 =>
        (set_state srv SAMPLE_1, clock_ppb dst 0%float ret)
    | SAMPLE_1 =>
        (set_state srv SAMPLE_2, [])
    | SAMPLE_2 =>
        let offset := interval_offset (last_ts srv) ts in
        (set_state (set_drift srv (Double.of_Z offset)) SAMPLE_3,
         clock_ppb dst (Double.of_Z (to_s64 (- offset))) ret)
    | SAMPLE_3 =>
        (set_state srv SAMPLE_N, clock_step dst (to_s64 (- offset)) ret)
    | SAMPLE_N =>
        let ki_term := pi_ki_term ki offset in
        let ppb := pi_ppb kp ki (drift srv) offset in
        if (ppb <? Double.of_Z min_ppb)%float then
          (srv, clock_ppb dst (- Double.of_Z min_ppb)%float ret)
        else if (Double.of_Z max_ppb <? ppb)%float then
          (srv, clock_ppb dst (- Double.of_Z max_ppb)%float ret)
        else
          (set_drift srv (drift srv + ki_term)%float,
           clock_ppb dst (- ppb)%float ret)
    end in
  (set_last_ts srv1 ts, line :: out).

(** ** [read_pps] *)

(** [fetch] is the assert timestamp [(sec, nsec)] the [PPS_FETCH] ioctl
    stores; [None] is a failing ioctl (time-out included). *)
Definition read_pps (fetch : option (Z * Z)) : option (Z * Z) * list event :=
  match fetch with
  | None => (None, [Stderr "ioctl PPS_FETCH"])
  | Some (sec, nsec) =>
      let ts := to_u64 (to_s64 (sec * NS_PER_SEC)) in
      let ts := to_u64 (ts + nsec) in
      let offset := to_s64 (ts mod NS_PER_SEC) in
      let offset :=
        if offset >? NS_PER_SEC / 2 then to_s64 (offset - NS_PER_SEC)
        else offset in
      (Some (offset, ts), [])
  end.

(** ** [main] *)

(** The locals of [main] once the option loop is over. *)
Record config : Type := mk_config {
  cfg_kp : float;
  cfg_ki : float;
  cfg_device : option string;
  cfg_src : Z;
  cfg_dst : Z;
  cfg_rdelay : Z
}.

(** Answers of the system to the calls made between the option loop and
    the control loop. *)
Record startup_env : Type := mk_startup_env {
  open_ret : Z;                      (* [open(device, O_RDONLY)] *)
  now_gettime : option timespec;     (* [clock_gettime(src, &now)] *)
  settime_ret : Z                    (* [clock_settime(dst, &now)] *)
}.

(** Answers of the system to the calls one pass of the loop can make. *)
Record iter_env : Type := mk_iter_env {
  pps_fetch : option (Z * Z);
  src_gettime : option timespec;
  dst_gettime : option timespec;
  adjtime_ret : Z
}.

(** One pass through the body of [while (1)]; a [continue] returns the
    servo untouched. *)
Definition loop_body (c : config) (fd : Z) (srv : servo) (e : iter_env)
    : servo * list event :=
  if fd >? 0 then
    match read_pps (pps_fetch e) with
    | (None, out1) => (srv, out1)
    | (Some (pps_offset, pps_ts), out1) =>
        match read_phc (cfg_src c) (cfg_dst c) (cfg_rdelay c)
                       (src_gettime e) (dst_gettime e) with
        | (None, out2) => (srv, out1 ++ Print_pps pps_offset :: out2)
        | (Some (phc_offset, phc_ts), out2) =>
            let '(srv', out3) :=
              do_servo srv (cfg_src c) (cfg_dst c) pps_offset pps_ts
                       (cfg_kp c) (cfg_ki c) (adjtime_ret e) in
            (srv', out1 ++ Print_pps pps_offset :: out2
                   ++ Print_phc phc_offset :: out3)
        end
    end
  else
    match read_phc (cfg_src c) (cfg_dst c) (cfg_rdelay c)
                   (src_gettime e) (dst_gettime e) with
    | (None, out2) => (srv, Usleep 1000000 :: out2)
    | (Some (phc_offset, phc_ts), out2) =>
        let '(srv', out3) :=
          do_servo srv (cfg_src c) (cfg_dst c) phc_offset phc_ts
                   (cfg_kp c) (cfg_ki c) (adjtime_ret e) in
        (srv', Usleep 1000000 :: out2 ++ Print_phc phc_offset :: out3)
    end.

(** The loop has no exit; [run_loop] is its effect over the passes whose
    system answers are listed. *)
Fixpoint run_loop (c : config) (fd : Z) (srv : servo) (es : list iter_env)
    : servo * list event :=
  match es with
  | [] => (srv, [])
  | e :: es' =>
      let '(srv1, out1) := loop_body c fd srv e in
      let '(srv2, out2) := run_loop c fd srv1 es' in
      (srv2, out1 ++ out2)
  end.

Inductive outcome : Type :=
| Exited (status : Z)          (* [main] returned [status] *)
| Looping (srv : servo).       (* still in [while (1)] *)

Definition is_configured (o : option string) : bool :=
  match o with Some _ => true | None => false end.

(** [main] from the test that follows the option loop. *)
Definition main (c : config) (s : startup_env) (es : list iter_env)
    : outcome * list event :=
  if negb (is_configured (cfg_device c) || negb (cfg_src c =? CLOCK_INVALID))
     || (cfg_dst c =? CLOCK_INVALID)
  then (Exited (-1), [Print_usage])
  else
    let fd := match cfg_device c with Some _ => open_ret s | None => 0 end in
    let failed :=
      match cfg_device c with
      | Some device =>
          if fd <? 0 then Some (Stderr ("cannot open " ++ device)) else None
      | None => None
      end in
    match failed with
    | Some msg => (Exited (-1), [msg])
    | None =>
        let out0 :=
          if negb (cfg_src c =? CLOCK_INVALID) then
            (match now_gettime s with
             | None => [Stderr "clock_gettime"]
             | Some _ => []
             end)
            ++ Clock_settime (cfg_dst c) (now_gettime s)
            :: (if settime_ret s =? 0 then [] else [Stderr "clock_settime"])
          else [] in
        let '(srv, out) := run_loop c fd servo_init es in
        (Looping srv, out0 ++ out)
    end.

(** The status the parent process observes for a value returned by [main]. *)
Definition exit_status (ret : Z) : Z := ret mod 256.

(** ** Definitions used to state the properties *)

(** A clock id as [FD_TO_CLOCKID] forms it for descriptor 3; any value other
    than [CLOCK_INVALID] would do in the examples below. *)
Definition example_phc : Z := -29.

(** Successive calls of the servo on the samples [(offset, ts, ret)]. *)
Fixpoint servo_calls (srv : servo) (src dst : Z) (kp ki : float)
    (samples : list (Z * Z * Z)) : servo * list event :=
  match samples with
  | [] => (srv, [])
  | (offset, ts, ret) :: rest =>
      let '(srv1, out1) := do_servo srv src dst offset ts kp ki ret in
      let '(srv2, out2) := servo_calls srv1 src dst kp ki rest in
      (srv2, out1 ++ out2)
  end.

(** The successor of a state in the bootstrap table. *)
Definition next_state (st : servo_state) : servo_state :=
  match st with
  | SAMPLE_0 => SAMPLE_1
  | SAMPLE_1 => SAMPLE_2
  | SAMPLE_2 => SAMPLE_3
  | SAMPLE_3 => SAMPLE_N
  | SAMPLE_N => SAMPLE_N
  end.

(** Position of a state in the enumeration. *)
Definition state_rank (st : servo_state) : nat :=
  match st with
  | SAMPLE_0 => 0 | SAMPLE_1 => 1 | SAMPLE_2 => 2 | SAMPLE_3 => 3
  | SAMPLE_N => 4
  end%nat.

(** The state in which the servo is found after [n] calls. *)
Definition state_after (n : nat) : servo_state :=
  match n with
  | 0 => SAMPLE_0 | 1 => SAMPLE_1 | 2 => SAMPLE_2 | 3 => SAMPLE_3
  | _ => SAMPLE_N
  end%nat.

(** The offset as the specification words it: the residual of the
    timestamp modulo one second, less one second when it exceeds half a
    second. *)
Definition pps_offset_spec (ts : Z) : Z :=
  let residual := ts mod 1000000000 in
  if 500000000 <? residual then residual - 1000000000 else residual.

(** A [struct timespec] as a count of nanoseconds. *)
Definition timespec_ns (t : timespec) : Z :=
  tv_sec t * 1000000000 + tv_nsec t.

(** The exact value of a finite [double] is [(-1)^s * m * 2^e].  Its
    integral part, as the specification words the conversion: the quotient
    toward zero, or nothing when the value is not finite or the quotient
    does not fit [long]. *)
Definition truncate_spec (x : float) : option Z :=
  match Prim2SF x with
  | S754_zero _ => Some 0
  | S754_finite s m e =>
      let z := Z.quot (cond_Zopp s (Zpos m) * 2 ^ Z.max e 0)
                      (2 ^ Z.max (- e) 0) in
      if (min_signed <=? z) && (z <=? max_signed) then Some z else None
  | S754_infinity _ | S754_nan => None
  end.

(** Every call of [do_servo] starts by printing its state line, and
    nothing else prints one. *)
Definition is_servo_line (e : event) : bool :=
  match e with Print_servo _ _ _ _ => true | _ => false end.

Definition is_adjustment (e : event) : bool :=
  match e with Clock_adjtime _ _ => true | _ => false end.

Definition servo_called (out : list event) : bool :=
  existsb is_servo_line out.
Definition clock_adjusted (out : list event) : bool :=
  existsb is_adjustment out.

Definition sampled {A : Type} (r : option A * list event) : bool :=
  match fst r with Some _ => true | None => false end.

Definition answered {A : Type} (o : option A) : bool :=
  match o with Some _ => true | None => false end.

(** A PPS device alone: descriptor 3, no master clock.  Three passes, the
    PPS fetch succeeding in the first and the last. *)
Definition pps_only : config :=
  {| cfg_kp := KP; cfg_ki := KI;
     cfg_device := Some "/dev/pps0"%string;
     cfg_src := CLOCK_INVALID; cfg_dst := CLOCK_REALTIME;
     cfg_rdelay := 0 |}.

Definition pps_only_passes : list iter_env :=
  let now sec := Some {| tv_sec := sec; tv_nsec := 0 |} in
  [ {| pps_fetch := Some (10, 250); src_gettime := now 10;
       dst_gettime := now 10; adjtime_ret := 0 |};
    {| pps_fetch := None; src_gettime := now 11;
       dst_gettime := now 11; adjtime_ret := 0 |};
    {| pps_fetch := Some (12, 900000000); src_gettime := now 12;
       dst_gettime := now 12; adjtime_ret := 0 |} ].

(** ** The option loop of [main] and [clock_open] *)

(** One return of [getopt], with what the library call made in its [case]
    returns: [open(optarg, O_RDWR)] for [-c] and [-s], [atoi(optarg)] for
    [-r], [atof(optarg)] for [-P] and [-I].  [Opt_other] is ['?'] and every
    value without a [case] of its own. *)
Inductive getopt_result : Type :=
| Opt_c (device : string) (fd : Z)
| Opt_d (device : string)
| Opt_h
| Opt_r (val : Z)
| Opt_s (device : string) (fd : Z)
| Opt_P (val : float)
| Opt_I (val : float)
| Opt_other.

(** The locals of [main] as they are initialised. *)
Definition config_init : config :=
  {| cfg_kp := KP; cfg_ki := KI; cfg_device := None;
     cfg_src := CLOCK_INVALID; cfg_dst := CLOCK_REALTIME; cfg_rdelay := 0 |}.

Inductive parsed : Type :=
| Parsed (c : config)          (* the loop ended on [EOF] *)
| Returned (status : Z).       (* a [case] returned from [main] *)

Section OptionLoop.

(** The macro of [missing.h] that makes a clock id of a descriptor; the
    header is not among the sources at hand, so the macro is a parameter. *)
Variable FD_TO_CLOCKID : Z -> Z.

(** [fd] is what [open(device, O_RDWR)] returns. *)
Definition clock_open (device : string) (fd : Z) : Z * list event :=
  if fd <? 0 then (CLOCK_INVALID, [Stderr ("cannot open " ++ device)])
  else (FD_TO_CLOCKID fd, []).

(** The [switch] of the option loop. *)
Definition option_case (o : getopt_result) (c : config)
    : parsed * list event :=
  match o with
  | Opt_c device fd =>
      let '(clkid, out) := clock_open device fd in
      (Parsed {| cfg_kp := cfg_kp c; cfg_ki := cfg_ki c;
                 cfg_device := cfg_device c; cfg_src := cfg_src c;
                 cfg_dst := clkid; cfg_rdelay := cfg_rdelay c |}, out)
  | Opt_d device =>
      (Parsed {| cfg_kp := cfg_kp c; cfg_ki := cfg_ki c;
                 cfg_device := Some device; cfg_src := cfg_src c;
                 cfg_dst := cfg_dst c; cfg_rdelay := cfg_rdelay c |}, [])
  | Opt_r val =>
      (Parsed {| cfg_kp := cfg_kp c; cfg_ki := cfg_ki c;
                 cfg_device := cfg_device c; cfg_src := cfg_src c;
                 cfg_dst := cfg_dst c; cfg_rdelay := val |}, [])
  | Opt_s device fd =>
      let '(clkid, out) := clock_open device fd in
      (Parsed {| cfg_kp := cfg_kp c; cfg_ki := cfg_ki c;
                 cfg_device := cfg_device c; cfg_src := clkid;
                 cfg_dst := cfg_dst c; cfg_rdelay := cfg_rdelay c |}, out)
  | Opt_P val =>
      (Parsed {| cfg_kp := val; cfg_ki := cfg_ki c;
                 cfg_device := cfg_device c; cfg_src := cfg_src c;
                 cfg_dst := cfg_dst c; cfg_rdelay := cfg_rdelay c |}, [])
  | Opt_I val =>
      (Parsed {| cfg_kp := cfg_kp c; cfg_ki := val;
                 cfg_device := cfg_device c; cfg_src := cfg_src c;
                 cfg_dst := cfg_dst c; cfg_rdelay := cfg_rdelay c |}, [])
  | Opt_h => (Returned 0, [Print_usage])
  | Opt_other => (Returned (-1), [Print_usage])
  end.

(** [while (EOF != (c = getopt(...)))] over the returns of [getopt]. *)
Fixpoint option_loop (opts : list getopt_result) (c : config)
    : parsed * list event :=
  match opts with
  | [] => (Parsed c, [])
  | o :: rest =>
      match option_case o c with
      | (Parsed c', out) =>
          let '(r, out') := option_loop rest c' in (r, out ++ out')
      | (Returned status, out) => (Returned status, out)
      end
  end.

(** [main] from its first statement: the option loop, then [main] above. *)
Definition main_argv (opts : list getopt_result) (s : startup_env)
    (es : list iter_env) : outcome * list event :=
  match option_loop opts config_init with
  | (Returned status, out) => (Exited status, out)
  | (Parsed c, out) =>
      let '(r, out') := main c s es in (r, out ++ out')
  end.

End OptionLoop.

(** ** Further definitions used to state the properties *)

(** The [clock_adjtime] calls of a run: clock id and structure submitted. *)
Definition adjustments (out : list event) : list (Z * timex) :=
  flat_map (fun e => match e with
                     | Clock_adjtime clkid tx => [(clkid, tx)]
                     | _ => []
                     end) out.

(** The [usleep] and [clock_settime] calls of a run. *)
Definition sleeps (out : list event) : list Z :=
  flat_map (fun e => match e with Usleep usec => [usec] | _ => [] end) out.

Definition settimes (out : list event) : list (Z * option timespec) :=
  flat_map (fun e => match e with
                     | Clock_settime clkid now => [(clkid, now)]
                     | _ => []
                     end) out.

(** The value [do_servo] hands to [clock_ppb] in [SAMPLE_N]. *)
Definition tracking_correction (kp ki d : float) (offset : Z) : float :=
  let ppb := pi_ppb kp ki d offset in
  if (ppb <? Double.of_Z min_ppb)%float then (- Double.of_Z min_ppb)%float
  else if (Double.of_Z max_ppb <? ppb)%float then (- Double.of_Z max_ppb)%float
  else (- ppb)%float.

(** The output of the servo saturates for this sample. *)
Definition saturates (kp ki d : float) (offset : Z) : bool :=
  let ppb := pi_ppb kp ki d offset in
  ((ppb <? Double.of_Z min_ppb) || (Double.of_Z max_ppb <? ppb))%float.

(** [x] is neither NaN nor an infinity. *)
Definition is_finite (x : float) : bool :=
  match Prim2SF x with
  | S754_zero _ | S754_finite _ _ _ => true
  | S754_infinity _ | S754_nan => false
  end.

(** The pass gets as far as the servo: [read_phc] returns a sample and,
    with a PPS descriptor, [read_pps] does too. *)
Definition pass_samples (c : config) (fd : Z) (e : iter_env) : bool :=
  sampled (read_phc (cfg_src c) (cfg_dst c) (cfg_rdelay c)
                    (src_gettime e) (dst_gettime e))
  && (if fd >? 0 then sampled (read_pps (pps_fetch e)) else true).

(** The sample a pass hands to the servo, with the result of the
    adjustment call: the PPS sample with a PPS descriptor, the sample of
    [read_phc] without; [None] when the pass ends in [continue]. *)
Definition pass_sample (c : config) (fd : Z) (e : iter_env)
    : option (Z * Z * Z) :=
  match fst (read_phc (cfg_src c) (cfg_dst c) (cfg_rdelay c)
                      (src_gettime e) (dst_gettime e)) with
  | None => None
  | Some (phc_offset, phc_ts) =>
      if fd >? 0 then
        match fst (read_pps (pps_fetch e)) with
        | None => None
        | Some (pps_offset, pps_ts) =>
            Some (pps_offset, pps_ts, adjtime_ret e)
        end
      else Some (phc_offset, phc_ts, adjtime_ret e)
  end.

Definition pass_samples_of (c : config) (fd : Z) (es : list iter_env)
    : list (Z * Z * Z) :=
  flat_map (fun e => match pass_sample c fd e with
                     | Some s => [s]
                     | None => []
                     end) es.

(** The same configuration without a PPS device. *)
Definition without_device (c : config) : config :=
  {| cfg_kp := cfg_kp c; cfg_ki := cfg_ki c; cfg_device := None;
     cfg_src := cfg_src c; cfg_dst := cfg_dst c; cfg_rdelay := cfg_rdelay c |}.

(** The options whose [case] returns from [main]. *)
Definition is_stop (o : getopt_result) : bool :=
  match o with Opt_h | Opt_other => true | _ => false end.

Definition is_opt_c (o : getopt_result) : bool :=
  match o with Opt_c _ _ => true | _ => false end.

Definition is_opt_h (o : getopt_result) : bool :=
  match o with Opt_h => true | _ => false end.

(** An instance of [FD_TO_CLOCKID] for the examples, in the form the Linux
    headers give the macro; no theorem depends on this choice. *)
Definition example_fd_to_clockid (fd : Z) : Z :=
  Z.lor (Z.shiftl (Z.lnot fd) 3) 3.

(** * Properties *)

(** ** 64-bit arithmetic *)

Lemma to_u64_range z : in_u64 (to_u64 z).
Proof.
  unfold in_u64, to_u64, max_unsigned, modulus.
  pose proof (Z.mod_pos_bound z (2 ^ 64)). lia.
Qed.

Lemma to_s64_range z : in_s64 (to_s64 z).
Proof.
  unfold in_s64, to_s64, min_signed, max_signed, half_modulus, modulus.
  pose proof (Z.mod_pos_bound (z + 2 ^ 63) (2 ^ 64)). lia.
Qed.

Lemma to_s64_small z : in_s64 z -> to_s64 z = z.
Proof.
  unfold in_s64, to_s64, min_signed, max_signed, half_modulus, modulus.
  intros H. rewrite Z.mod_small; lia.
Qed.

Lemma to_u64_small z : in_u64 z -> to_u64 z = z.
Proof.
  unfold in_u64, to_u64, max_unsigned, modulus.
  intros H. apply Z.mod_small. lia.
Qed.

Lemma to_s64_bits z : same_bits (to_s64 z) z.
Proof.
  unfold same_bits, to_s64, half_modulus, modulus.
  rewrite Zminus_mod_idemp_l. f_equal. lia.
Qed.

Lemma to_u64_bits z : same_bits (to_u64 z) z.
Proof. unfold same_bits, to_u64. apply Z.mod_mod. discriminate. Qed.

Lemma same_bits_to_s64 a b : same_bits a b -> to_s64 a = to_s64 b.
Proof.
  unfold same_bits, to_s64, half_modulus, modulus. intros H.
  f_equal.
  rewrite <- (Zplus_mod_idemp_l a), <- (Zplus_mod_idemp_l b), H.
  reflexivity.
Qed.

Lemma same_bits_to_u64 a b : same_bits a b -> to_u64 a = to_u64 b.
Proof. unfold same_bits, to_u64. auto. Qed.

Lemma same_bits_refl a : same_bits a a.
Proof. reflexivity. Qed.

Lemma same_bits_trans a b c : same_bits a b -> same_bits b c -> same_bits a c.
Proof. unfold same_bits. congruence. Qed.

Lemma same_bits_add a a' b b' :
  same_bits a a' -> same_bits b b' -> same_bits (a + b) (a' + b').
Proof.
  unfold same_bits. intros Ha Hb.
  rewrite (Zplus_mod a b), (Zplus_mod a' b'), Ha, Hb. reflexivity.
Qed.

Lemma same_bits_sub a a' b b' :
  same_bits a a' -> same_bits b b' -> same_bits (a - b) (a' - b').
Proof.
  unfold same_bits. intros Ha Hb.
  rewrite (Zminus_mod a b), (Zminus_mod a' b'), Ha, Hb. reflexivity.
Qed.

Lemma same_bits_opp a a' : same_bits a a' -> same_bits (- a) (- a').
Proof.
  intros H. change (- a) with (0 - a). change (- a') with (0 - a').
  apply same_bits_sub; [apply same_bits_refl | exact H].
Qed.

Create HintDb bits64.

#[global] Hint Resolve to_s64_bits to_u64_bits same_bits_refl
  same_bits_add same_bits_sub same_bits_opp : bits64.


(** ** Conversion of integers to [double] *)

(** [digits2_pos m] is the number of binary digits of [m]. *)
Lemma digits2_pos_bounds m :
  2 ^ (Zpos (digits2_pos m) - 1) <= Zpos m < 2 ^ Zpos (digits2_pos m).
Proof.
  induction m as [p IH|p IH|]; cbn [digits2_pos].
  - rewrite Pos2Z.inj_succ.
    replace (Z.succ (Z.pos (digits2_pos p)) - 1)
      with (Z.succ (Z.pos (digits2_pos p) - 1)) by lia.
    rewrite !Z.pow_succ_r by lia. lia.
  - rewrite Pos2Z.inj_succ.
    replace (Z.succ (Z.pos (digits2_pos p)) - 1)
      with (Z.succ (Z.pos (digits2_pos p) - 1)) by lia.
    rewrite !Z.pow_succ_r by lia. lia.
  - simpl. lia.
Qed.

Lemma iter_xO_value m k : Zpos (Pos.iter xO m k) = Zpos m * 2 ^ Zpos k.
Proof.
  induction k as [|k IH] using Pos.peano_ind.
  - simpl. lia.
  - rewrite Pos.iter_succ, Pos2Z.inj_succ, Z.pow_succ_r by lia.
    rewrite Pos2Z.inj_xO, IH. ring.
Qed.

Lemma iter_xO_digits m k :
  digits2_pos (Pos.iter xO m k) = (digits2_pos m + k)%positive.
Proof.
  induction k as [|k IH] using Pos.peano_ind.
  - simpl. lia.
  - rewrite Pos.iter_succ. cbn [digits2_pos]. rewrite IH. lia.
Qed.

(** A mantissa of exactly 53 digits with an exponent in range is kept as it
    is by the rounding step. *)
Lemma binary_round_aux_exact s mz ez :
  digits2_pos mz = 53%positive -> -1074 <= ez <= 971 ->
  binary_round_aux 53 1024 s (Zpos mz) ez loc_Exact = S754_finite s mz ez.
Proof.
  intros D R. unfold binary_round_aux.
  assert (F : shr_fexp 53 1024 (Zpos mz) ez loc_Exact
              = ({| shr_m := Zpos mz; shr_r := false; shr_s := false |}, ez)).
  { unfold shr_fexp, Zdigits2. rewrite D.
    unfold fexp, SpecFloat.emin.
    replace (Z.max (53 + ez - 53) (3 - 1024 - 53) - ez) with 0 by lia.
    reflexivity. }
  rewrite F. cbn [shr_m loc_of_shr_record round_nearest_even].
  rewrite F. cbn [shr_m].
  destruct (Z.leb_spec ez (1024 - 53)); [reflexivity|lia].
Qed.

Lemma binary_round_small s m :
  Zpos m < 2 ^ 53 ->
  exists mz ez,
    binary_round 53 1024 s m 0 = S754_finite s mz ez
    /\ digits2_pos mz = 53%positive /\ -52 <= ez <= 0
    /\ Zpos mz = Zpos m * 2 ^ (- ez).
Proof.
  intros B.
  pose proof (digits2_pos_bounds m) as [L _].
  assert (D : Zpos (digits2_pos m) <= 53).
  { destruct (Z.le_gt_cases (Zpos (digits2_pos m)) 53) as [H|H]; [exact H|].
    exfalso. assert (2 ^ 53 <= 2 ^ (Zpos (digits2_pos m) - 1))
      by (apply Z.pow_le_mono_r; lia). lia. }
  unfold binary_round.
  unfold fexp, SpecFloat.emin.
  replace (Z.max (Z.pos (digits2_pos m) + 0 - 53) (3 - 1024 - 53))
    with (Z.pos (digits2_pos m) - 53) by lia.
  unfold shl_align.
  destruct (Z.pos (digits2_pos m) - 53 - 0) as [|k|k] eqn:E; try lia.
  - exists m, 0. rewrite binary_round_aux_exact by lia.
    repeat split; try lia.
  - exists (Pos.iter xO m k), (Z.pos (digits2_pos m) - 53).
    rewrite binary_round_aux_exact.
    + repeat split; try lia.
      * rewrite iter_xO_digits. lia.
      * rewrite iter_xO_value. f_equal. f_equal. lia.
    + rewrite iter_xO_digits. lia.
    + lia.
Qed.

Lemma valid_binary_53 s mz ez :
  digits2_pos mz = 53%positive -> -52 <= ez <= 0 ->
  valid_binary (S754_finite s mz ez) = true.
Proof.
  intros D R. unfold SpecFloat.valid_binary, bounded, canonical_mantissa.
  rewrite D. unfold fexp, SpecFloat.emin, prec, emax.
  apply andb_true_intro. split; [apply Z.eqb_eq | apply Z.leb_le]; lia.
Qed.

(** Integers of at most 53 bits are converted without rounding. *)
Lemma of_Z_exact z :
  - 2 ^ 53 <= z <= 2 ^ 53 -> Double.represents (Double.of_Z z) z.
Proof.
  intros R.
  assert (E : z = 2 ^ 53 \/ z = - 2 ^ 53 \/ - 2 ^ 53 < z < 2 ^ 53) by lia.
  destruct E as [-> | [-> | B]]; [vm_compute; reflexivity .. |].
  unfold Double.represents, Double.of_Z, prec, emax.
  destruct z as [|m|m].
  - vm_compute. reflexivity.
  - cbn [binary_normalize].
    destruct (binary_round_small false m) as [mz [ez [E [D [Rz V]]]]]; [lia|].
    rewrite E, Prim2SF_SF2Prim by (apply valid_binary_53; assumption).
    cbn [cond_Zopp]. replace (Z.max ez 0) with 0 by lia.
    replace (Z.max (- ez) 0) with (- ez) by lia. rewrite V. ring.
  - cbn [binary_normalize].
    destruct (binary_round_small true m) as [mz [ez [E [D [Rz V]]]]]; [lia|].
    rewrite E, Prim2SF_SF2Prim by (apply valid_binary_53; assumption).
    cbn [cond_Zopp]. replace (Z.max ez 0) with 0 by lia.
    replace (Z.max (- ez) 0) with (- ez) by lia.
    change (Z.neg mz) with (- Z.pos mz). change (Z.neg m) with (- Z.pos m).
    rewrite V. ring.
Qed.

(** ** Facts about [double] comparisons *)

Lemma SFcompare_antisym x y c :
  SFcompare x y = Some c -> SFcompare y x = Some (CompOpp c).
Proof.
  destruct x as [sx|sx| |sx mx ex], y as [sy|sy| |sy my ey]; simpl;
    try discriminate;
    try (intros H; injection H as <-);
    try (destruct sx; reflexivity); try (destruct sy; reflexivity);
    try (destruct sx, sy; reflexivity).
  destruct sx, sy; try reflexivity;
    rewrite (Z.compare_antisym ey ex);
    destruct (ey ?= ex) eqn:E; simpl; try reflexivity;
    rewrite !Pos.compare_cont_spec; simpl;
    rewrite (Pos.compare_antisym my mx);
    destruct (my ?= mx)%positive; reflexivity.
Qed.

Lemma leb_not_ltb (x y : float) :
  (x <=? y)%float = true -> (y <? x)%float = false.
Proof.
  rewrite leb_spec, ltb_spec. unfold SFleb, SFltb.
  destruct (SFcompare (Prim2SF x) (Prim2SF y)) as [c|] eqn:E; [|discriminate].
  rewrite (SFcompare_antisym _ _ _ E). destruct c; simpl; congruence.
Qed.

(** A value cannot lie below a negative finite bound and above a positive
    finite one. *)
Lemma not_below_and_above (x lo hi : float) mlo elo mhi ehi :
  Prim2SF lo = S754_finite true mlo elo ->
  Prim2SF hi = S754_finite false mhi ehi ->
  (hi <? x)%float = true -> (x <? lo)%float = false.
Proof.
  intros Hlo Hhi. rewrite !ltb_spec, Hlo, Hhi. unfold SFltb.
  destruct (Prim2SF x) as [s|s| |s m e]; simpl; try discriminate;
    try reflexivity; destruct s; try discriminate; reflexivity.
Qed.

(** The two limits as [double] values. *)
Lemma min_ppb_double : Double.of_Z min_ppb = (-512000)%float.
Proof. vm_compute. reflexivity. Qed.

Lemma max_ppb_double : Double.of_Z max_ppb = 512000%float.
Proof. vm_compute. reflexivity. Qed.

(** ** The servo in [SAMPLE_N] *)

Section Tracking.

Variables (srv : servo) (src dst offset ts : Z) (kp ki : float) (ret : Z).
Hypothesis tracking : state srv = SAMPLE_N.

Let ppb := pi_ppb kp ki (drift srv) offset.
Let line := Print_servo SAMPLE_N (ts / NS_PER_SEC) (ts mod NS_PER_SEC)
                        (drift srv).

Lemma tracking_below :
  (ppb <? -512000)%float = true ->
  do_servo srv src dst offset ts kp ki ret
  = (set_last_ts srv ts, line :: clock_ppb dst 512000%float ret).
Proof.
  intros H. unfold do_servo. rewrite tracking.
  fold ppb. rewrite min_ppb_double, H. reflexivity.
Qed.

Lemma tracking_above :
  (512000 <? ppb)%float = true ->
  do_servo srv src dst offset ts kp ki ret
  = (set_last_ts srv ts, line :: clock_ppb dst (-512000)%float ret).
Proof.
  intros H. unfold do_servo. rewrite tracking.
  fold ppb. rewrite min_ppb_double, max_ppb_double, H.
  rewrite (not_below_and_above ppb (-512000)%float 512000%float
             8796093022208000 (-34) 8796093022208000 (-34));
    [reflexivity | vm_compute; reflexivity | vm_compute; reflexivity | exact H].
Qed.

Lemma tracking_within :
  (ppb <? -512000)%float = false ->
  (512000 <? ppb)%float = false ->
  do_servo srv src dst offset ts kp ki ret
  = (set_last_ts (set_drift srv (drift srv + pi_ki_term ki offset)%float) ts,
     line :: clock_ppb dst (- ppb)%float ret).
Proof.
  intros L H. unfold do_servo. rewrite tracking.
  fold ppb. rewrite min_ppb_double, max_ppb_double, L, H. reflexivity.
Qed.

End Tracking.

(** C1 (as amended).  In [SAMPLE_N], with [d] the drift before the call and
    [ppb = kp*offset + d + ki*offset]: when [-512000 <= ppb <= 512000],
    both limits included, the drift after the call is [d + ki*offset] and
    the correction handed to [clock_ppb] for the destination clock is
    [-ppb]; when [ppb < -512000] the correction is [512000] and the drift
    is [d]; when [ppb > 512000] the correction is [-512000] and the drift
    is [d].  In every case the state stays [SAMPLE_N]. *)
Theorem servo_tracking_pi_update
    (srv : servo) (src dst offset ts : Z) (kp ki : float) (ret : Z) :
  state srv = SAMPLE_N ->
  let d := drift srv in
  let o := Double.of_Z offset in
  let ppb := (kp * o + d + ki * o)%float in
  let after := fst (do_servo srv src dst offset ts kp ki ret) in
  let sent := snd (do_servo srv src dst offset ts kp ki ret) in
  let line :=
    Print_servo SAMPLE_N (ts / NS_PER_SEC) (ts mod NS_PER_SEC) d in
  ((-512000 <=? ppb)%float = true -> (ppb <=? 512000)%float = true ->
   drift after = (d + ki * o)%float /\
   sent = line :: clock_ppb dst (- ppb)%float ret)
  /\ ((ppb <? -512000)%float = true ->
      drift after = d /\ sent = line :: clock_ppb dst 512000%float ret)
  /\ ((512000 <? ppb)%float = true ->
      drift after = d /\ sent = line :: clock_ppb dst (-512000)%float ret)
  /\ state after = SAMPLE_N
  /\ last_ts after = ts.
Proof.
  intros T d o ppb after sent line.
  change ppb with (pi_ppb kp ki (drift srv) offset) in *.
  subst after sent. repeat split.
  - rewrite (tracking_within srv src dst offset ts kp ki ret T);
      [reflexivity | apply leb_not_ltb; assumption
                   | apply leb_not_ltb; assumption].
  - rewrite (tracking_within srv src dst offset ts kp ki ret T);
      [reflexivity | apply leb_not_ltb; assumption
                   | apply leb_not_ltb; assumption].
  - rewrite (tracking_below srv src dst offset ts kp ki ret T) by assumption.
    reflexivity.
  - rewrite (tracking_below srv src dst offset ts kp ki ret T) by assumption.
    reflexivity.
  - rewrite (tracking_above srv src dst offset ts kp ki ret T) by assumption.
    reflexivity.
  - rewrite (tracking_above srv src dst offset ts kp ki ret T) by assumption.
    reflexivity.
  - destruct (pi_ppb kp ki (drift srv) offset <? -512000)%float eqn:L.
    + rewrite (tracking_below srv src dst offset ts kp ki ret T L). exact T.
    + destruct (512000 <? pi_ppb kp ki (drift srv) offset)%float eqn:H.
      * rewrite (tracking_above srv src dst offset ts kp ki ret T H). exact T.
      * rewrite (tracking_within srv src dst offset ts kp ki ret T L H).
        exact T.
  - destruct (pi_ppb kp ki (drift srv) offset <? -512000)%float eqn:L.
    + rewrite (tracking_below srv src dst offset ts kp ki ret T L).
      reflexivity.
    + destruct (512000 <? pi_ppb kp ki (drift srv) offset)%float eqn:H.
      * rewrite (tracking_above srv src dst offset ts kp ki ret T H).
        reflexivity.
      * rewrite (tracking_within srv src dst offset ts kp ki ret T L H).
        reflexivity.
Qed.

(** The update at an in-range sample: drift 100, offset 10, default gains. *)
Lemma servo_tracking_pi_update_witness :
  let srv := {| last_ts := 0; drift := 100%float; state := SAMPLE_N |} in
  drift (fst (do_servo srv example_phc CLOCK_REALTIME 10 1000000000 KP KI 0))
  = (100 + KI * Double.of_Z 10)%float.
Proof.
  intros srv.
  exact (proj1 (proj1 (servo_tracking_pi_update
                         srv example_phc CLOCK_REALTIME 10 1000000000 KP KI 0
                         eq_refl)
                      eq_refl eq_refl)).
Defined.

(** C1, at the upper limit.  The run below ends in [SAMPLE_N]
    with drift 511990; the next sample has offset 10, so with the default
    gains [ppb] is exactly 512000.  The drift is not left unchanged at the
    limit: it becomes 511993. *)
Lemma servo_tracking_boundary_counterexample :
  let bootstrap :=
    [(0, 0, 0); (0, 1000000000, 0); (0, 2000511990, 0); (0, 3000511990, 0)] in
  let srv :=
    fst (servo_calls servo_init example_phc CLOCK_REALTIME KP KI bootstrap) in
  let after :=
    fst (do_servo srv example_phc CLOCK_REALTIME 10 4000511990 KP KI 0) in
  state srv = SAMPLE_N /\
  drift srv = 511990%float /\
  pi_ppb KP KI (drift srv) 10 = 512000%float /\
  drift after = 511993%float /\
  drift after <> drift srv.
Proof.
  repeat split; try (vm_compute; reflexivity).
  intros H. apply (f_equal Prim2SF) in H. vm_compute in H. discriminate.
Qed.

(** ** The bootstrap sequence *)

Lemma do_servo_state srv src dst offset ts kp ki ret :
  state (fst (do_servo srv src dst offset ts kp ki ret))
  = next_state (state srv).
Proof.
  unfold do_servo.
  destruct (state srv) eqn:S; simpl; try reflexivity.
  destruct (_ <? _)%float; [simpl; exact S|].
  destruct (_ <? _)%float; simpl; exact S.
Qed.

Lemma next_state_rank st :
  state_rank (next_state st) = Nat.min (S (state_rank st)) 4.
Proof. destruct st; reflexivity. Qed.

Lemma state_after_succ n : state_after (S n) = next_state (state_after n).
Proof. do 4 (destruct n as [|n]; [reflexivity|]). reflexivity. Qed.

Lemma servo_calls_state srv src dst kp ki samples :
  state (fst (servo_calls srv src dst kp ki samples))
  = Nat.iter (List.length samples) next_state (state srv).
Proof.
  revert srv. induction samples as [|[[o t] r] rest IH]; intros srv; simpl.
  - reflexivity.
  - pose proof (do_servo_state srv src dst o t kp ki r) as D.
    destruct (do_servo srv src dst o t kp ki r) as [srv1 out1].
    specialize (IH srv1).
    destruct (servo_calls srv1 src dst kp ki rest) as [srv2 out2].
    simpl in *. rewrite IH, D.
    clear. induction (List.length rest) as [|n IHn]; simpl; [reflexivity|].
    rewrite IHn. reflexivity.
Qed.

Lemma iter_next_state n : Nat.iter n next_state SAMPLE_0 = state_after n.
Proof.
  induction n as [|n IH]; [reflexivity|].
  simpl Nat.iter. rewrite IH. symmetry. apply state_after_succ.
Qed.

(** C2.  Whatever offsets, timestamps, gains, clock ids and system-call
    results are fed in: one call moves the servo from its state to the
    next one of the table ([SAMPLE_0], [SAMPLE_1], [SAMPLE_2], [SAMPLE_3],
    [SAMPLE_N], then [SAMPLE_N] for ever), which is one rank higher until
    rank 4 is reached and never lower; and starting from the initial servo
    the state after [n] calls is [SAMPLE_0], [SAMPLE_1], [SAMPLE_2],
    [SAMPLE_3] for [n = 0, 1, 2, 3] and [SAMPLE_N] from the fourth call on,
    so two runs of the same length end in the same state. *)
Theorem servo_state_sequence :
  (forall srv src dst offset ts kp ki ret,
      let st' := state (fst (do_servo srv src dst offset ts kp ki ret)) in
      st' = next_state (state srv) /\
      state_rank st' = Nat.min (S (state_rank (state srv))) 4 /\
      (state_rank (state srv) <= state_rank st')%nat)
  /\ (forall src dst kp ki samples,
         state (fst (servo_calls servo_init src dst kp ki samples))
         = state_after (List.length samples))
  /\ (forall src dst kp ki src' dst' kp' ki' samples samples',
         List.length samples = List.length samples' ->
         state (fst (servo_calls servo_init src dst kp ki samples))
         = state (fst (servo_calls servo_init src' dst' kp' ki' samples')))
  /\ state servo_init = SAMPLE_0
  /\ (forall n, (4 <= n)%nat -> state_after n = SAMPLE_N).
Proof.
  repeat split.
  - apply do_servo_state.
  - rewrite do_servo_state. apply next_state_rank.
  - rewrite do_servo_state. destruct (state srv); simpl; lia.
  - intros. rewrite servo_calls_state. apply iter_next_state.
  - intros. rewrite !servo_calls_state. simpl. congruence.
  - intros n H. do 4 (destruct n as [|n]; [lia|]). reflexivity.
Qed.

(** Two runs of five calls on unrelated samples, and a run of seven. *)
Lemma servo_state_sequence_witness :
  state (fst (servo_calls servo_init example_phc CLOCK_REALTIME KP KI
                [(5, 10, 0); (-7, 20, 0); (9, 30, -1); (0, 0, 0); (1, 2, 0)]))
  = state (fst (servo_calls servo_init 1 CLOCK_REALTIME 0%float 1%float
                  [(0, 0, 0); (0, 0, 0); (0, 0, 0); (12, 1, 0); (3, 2, 0)]))
  /\ state_after 7 = SAMPLE_N.
Proof.
  split.
  - apply (proj1 (proj2 (proj2 servo_state_sequence))). reflexivity.
  - apply (proj2 (proj2 (proj2 (proj2 servo_state_sequence)))). lia.
Defined.

(** ** The servo in [SAMPLE_2] *)

(** The 64-bit steps of the interval computation add up to one reduction
    of the exact difference. *)
Lemma interval_offset_exact_bits last ts :
  interval_offset last ts = to_s64 (ts - last - NS_PER_SEC).
Proof.
  unfold interval_offset. apply same_bits_to_s64.
  apply same_bits_sub; [|apply same_bits_refl].
  eapply same_bits_trans; [apply to_s64_bits | apply to_u64_bits].
Qed.

Lemma neg_to_s64 z : to_s64 (- to_s64 z) = to_s64 (- z).
Proof. apply same_bits_to_s64. auto with bits64. Qed.

Lemma do_servo_sample_2 srv src dst offset ts kp ki ret :
  state srv = SAMPLE_2 ->
  do_servo srv src dst offset ts kp ki ret
  = ({| last_ts := ts;
        drift := Double.of_Z (to_s64 (ts - last_ts srv - NS_PER_SEC));
        state := SAMPLE_3 |},
     Print_servo SAMPLE_2 (ts / NS_PER_SEC) (ts mod NS_PER_SEC) (drift srv)
     :: clock_ppb dst
          (Double.of_Z (to_s64 (- (ts - last_ts srv - NS_PER_SEC)))) ret).
Proof.
  intros S. unfold do_servo. rewrite S.
  rewrite interval_offset_exact_bits, neg_to_s64. reflexivity.
Qed.

(** C3.  In [SAMPLE_2], with [measured = (ts - last_ts) - 1000000000]:
    the call stores [(double) measured] in the drift, hands
    [(double) (- measured)] to [clock_ppb] for the destination clock, and
    moves to [SAMPLE_3] with [last_ts = ts].  The integer is the one the
    64-bit arithmetic of the program holds, which is [measured] itself
    whenever [measured] and its opposite fit [int64_t]; up to [2^53] in
    absolute value the conversion to [double] does not round, so the drift
    is exactly [measured] and the correction exactly [- measured].  With
    [last_ts = 0] and [ts = 1500000000], [measured] is 500000000 and the
    drift becomes 500000000. *)
Theorem servo_measure_interval
    (srv : servo) (src dst offset ts : Z) (kp ki : float) (ret : Z) :
  state srv = SAMPLE_2 ->
  let measured := (ts - last_ts srv) - 1000000000 in
  let result := do_servo srv src dst offset ts kp ki ret in
  let line :=
    Print_servo SAMPLE_2 (ts / NS_PER_SEC) (ts mod NS_PER_SEC) (drift srv) in
  result
  = ({| last_ts := ts;
        drift := Double.of_Z (to_s64 measured);
        state := SAMPLE_3 |},
     line :: clock_ppb dst (Double.of_Z (to_s64 (- measured))) ret)
  /\ (min_signed < measured <= max_signed ->
      result
      = ({| last_ts := ts;
            drift := Double.of_Z measured;
            state := SAMPLE_3 |},
         line :: clock_ppb dst (Double.of_Z (- measured)) ret))
  /\ (- 2 ^ 53 <= measured <= 2 ^ 53 ->
      Double.represents (drift (fst result)) measured
      /\ exists ppb,
          snd result = line :: clock_ppb dst ppb ret
          /\ Double.represents ppb (- measured))
  /\ (last_ts srv = 0 -> ts = 1500000000 ->
      measured = 500000000 /\ drift (fst result) = 500000000%float).
Proof.
  intros S measured result line. subst result.
  rewrite (do_servo_sample_2 srv src dst offset ts kp ki ret S).
  fold line. change (ts - last_ts srv - NS_PER_SEC) with measured.
  assert (F : min_signed < measured <= max_signed ->
              to_s64 measured = measured /\ to_s64 (- measured) = - measured).
  { intros R. split; apply to_s64_small;
      revert R; unfold in_s64, min_signed, max_signed, half_modulus; lia. }
  split; [reflexivity|]. split; [|split].
  - intros R. destruct (F R) as [-> ->]. reflexivity.
  - intros R.
    destruct F as [-> ->];
      [unfold min_signed, max_signed, half_modulus; lia|].
    cbn [fst snd drift]. split.
    + apply of_Z_exact. exact R.
    + eexists. split; [reflexivity|]. apply of_Z_exact. lia.
  - intros L T. subst measured. rewrite L, T. split; [reflexivity|].
    vm_compute. reflexivity.
Qed.

(** One and a half seconds between the two samples. *)
Lemma servo_measure_interval_witness :
  let srv := {| last_ts := 0; drift := 0%float; state := SAMPLE_2 |} in
  let result :=
    do_servo srv example_phc CLOCK_REALTIME 77 1500000000 KP KI 0 in
  result
  = ({| last_ts := 1500000000;
        drift := Double.of_Z 500000000;
        state := SAMPLE_3 |},
     Print_servo SAMPLE_2 1 500000000 0%float
     :: clock_ppb CLOCK_REALTIME (Double.of_Z (-500000000)) 0)
  /\ Double.represents (drift (fst result)) 500000000
  /\ drift (fst result) = 500000000%float.
Proof.
  intros srv result.
  pose proof (servo_measure_interval
                srv example_phc CLOCK_REALTIME 77 1500000000 KP KI 0 eq_refl)
    as [_ [Hfit [Hexact Hex]]].
  split; [|split].
  - apply Hfit. unfold min_signed, max_signed, half_modulus. simpl. lia.
  - apply Hexact. simpl. lia.
  - apply (Hex eq_refl eq_refl).
Defined.

(** C10.  In [SAMPLE_2] the offset argument is dead: two calls that differ
    only in it return the same servo and the same events, the frequency
    correction included. *)
Theorem servo_measure_interval_ignores_offset
    (srv : servo) (src dst offset1 offset2 ts : Z) (kp ki : float) (ret : Z) :
  state srv = SAMPLE_2 ->
  do_servo srv src dst offset1 ts kp ki ret
  = do_servo srv src dst offset2 ts kp ki ret.
Proof.
  intros S. unfold do_servo. rewrite S. reflexivity.
Qed.

Lemma servo_measure_interval_ignores_offset_witness :
  let srv := {| last_ts := 1000000000; drift := 0%float; state := SAMPLE_2 |} in
  do_servo srv example_phc CLOCK_REALTIME 123456 2000000250 KP KI 0
  = do_servo srv example_phc CLOCK_REALTIME (-987654321) 2000000250 KP KI 0.
Proof.
  intros srv.
  exact (servo_measure_interval_ignores_offset
           srv example_phc CLOCK_REALTIME 123456 (-987654321) 2000000250
           KP KI 0 eq_refl).
Defined.

(** ** [read_pps] *)

Lemma pps_offset_spec_range ts :
  -500000000 < pps_offset_spec ts <= 500000000.
Proof.
  unfold pps_offset_spec.
  pose proof (Z.mod_pos_bound ts 1000000000 eq_refl) as B.
  destruct (Z.ltb_spec 500000000 (ts mod 1000000000)); lia.
Qed.

Lemma read_pps_timestamp sec nsec :
  to_u64 (to_u64 (to_s64 (sec * NS_PER_SEC)) + nsec)
  = to_u64 (sec * NS_PER_SEC + nsec).
Proof.
  apply same_bits_to_u64. apply same_bits_add; [|apply same_bits_refl].
  eapply same_bits_trans; [apply to_u64_bits | apply to_s64_bits].
Qed.

(** C4.  A successful fetch of the edge [(sec, nsec)] yields the timestamp
    [ts = sec * 1000000000 + nsec] (as [uint64_t]) and the offset
    [ts mod 1000000000], less 1000000000 when that residual exceeds
    500000000; the offset lies in [(-500000000, 500000000]]; a residual of
    900000000 gives -100000000 and one of 400000000 gives 400000000. *)
Theorem read_pps_offset (sec nsec : Z) :
  let ts := to_u64 (sec * 1000000000 + nsec) in
  read_pps (Some (sec, nsec)) = (Some (pps_offset_spec ts, ts), [])
  /\ -500000000 < pps_offset_spec ts <= 500000000
  /\ (ts mod 1000000000 = 900000000 -> pps_offset_spec ts = -100000000)
  /\ (ts mod 1000000000 = 400000000 -> pps_offset_spec ts = 400000000).
Proof.
  intros ts. split; [|split; [apply pps_offset_spec_range|split]].
  - unfold read_pps. rewrite read_pps_timestamp.
    change (to_u64 (sec * NS_PER_SEC + nsec)) with ts.
    change (NS_PER_SEC / 2) with 500000000.
    change NS_PER_SEC with 1000000000.
    pose proof (Z.mod_pos_bound ts 1000000000 eq_refl) as B.
    assert (S : to_s64 (ts mod 1000000000) = ts mod 1000000000).
    { apply to_s64_small.
      unfold in_s64, min_signed, max_signed, half_modulus. lia. }
    rewrite S. unfold pps_offset_spec.
    rewrite Z.gtb_ltb.
    destruct (Z.ltb_spec 500000000 (ts mod 1000000000)); [|reflexivity].
    rewrite to_s64_small; [reflexivity|].
    unfold in_s64, min_signed, max_signed, half_modulus. lia.
  - intros R. unfold pps_offset_spec. rewrite R. reflexivity.
  - intros R. unfold pps_offset_spec. rewrite R. reflexivity.
Qed.

(** Edges 0.9 s and 0.4 s after the start of second 5. *)
Lemma read_pps_offset_witness :
  read_pps (Some (5, 900000000)) = (Some (-100000000, 5900000000), [])
  /\ read_pps (Some (5, 400000000)) = (Some (400000000, 5400000000), []).
Proof.
  split.
  - pose proof (read_pps_offset 5 900000000) as [E [_ [W _]]].
    rewrite (W eq_refl) in E. exact E.
  - pose proof (read_pps_offset 5 400000000) as [E [_ [_ W]]].
    rewrite (W eq_refl) in E. exact E.
Defined.

(** ** [read_phc] *)

Lemma read_phc_offset_bits tsrc tdst rdelay :
  to_s64 (to_s64 (to_s64 (to_s64 (to_s64 (tv_sec tdst * NS_PER_SEC)
                                  - to_s64 (tv_sec tsrc * NS_PER_SEC))
                          + tv_nsec tdst)
                  - tv_nsec tsrc)
          - rdelay)
  = to_s64 (timespec_ns tdst - timespec_ns tsrc - rdelay).
Proof.
  apply same_bits_to_s64. unfold timespec_ns.
  change NS_PER_SEC with 1000000000.
  replace (tv_sec tdst * 1000000000 + tv_nsec tdst
           - (tv_sec tsrc * 1000000000 + tv_nsec tsrc) - rdelay)
    with (tv_sec tdst * 1000000000 - tv_sec tsrc * 1000000000
          + tv_nsec tdst - tv_nsec tsrc - rdelay) by lia.
  apply same_bits_sub; [|apply same_bits_refl].
  eapply same_bits_trans; [apply to_s64_bits|].
  apply same_bits_sub; [|apply same_bits_refl].
  eapply same_bits_trans; [apply to_s64_bits|].
  apply same_bits_add; [|apply same_bits_refl].
  eapply same_bits_trans; [apply to_s64_bits|].
  apply same_bits_sub; apply to_s64_bits.
Qed.

Lemma read_phc_timestamp_bits tdst :
  to_u64 (to_s64 (to_s64 (tv_sec tdst * NS_PER_SEC) + tv_nsec tdst))
  = to_u64 (timespec_ns tdst).
Proof.
  apply same_bits_to_u64. unfold timespec_ns.
  eapply same_bits_trans; [apply to_s64_bits|].
  apply same_bits_add; [apply to_s64_bits | apply same_bits_refl].
Qed.

(** C5.  With a valid source handle and both clock reads successful, the
    sample is [(dst_time - src_time) - rdelay] (as [int64_t]) stamped with
    [dst_time] (as [uint64_t]), the two times being the readings in
    nanoseconds; these are the exact integers whenever they fit their
    types.  With [CLOCK_INVALID] as the source the sampler returns no
    sample and reports nothing, whatever the clock reads would give. *)
Theorem read_phc_offset
    (clkid sysclk rdelay : Z) (tsrc tdst : timespec) :
  clkid <> CLOCK_INVALID ->
  let src_time := timespec_ns tsrc in
  let dst_time := timespec_ns tdst in
  read_phc clkid sysclk rdelay (Some tsrc) (Some tdst)
  = (Some (to_s64 ((dst_time - src_time) - rdelay), to_u64 dst_time), [])
  /\ (in_s64 ((dst_time - src_time) - rdelay) -> in_u64 dst_time ->
      read_phc clkid sysclk rdelay (Some tsrc) (Some tdst)
      = (Some ((dst_time - src_time) - rdelay, dst_time), []))
  /\ (forall gsrc gdst,
         read_phc CLOCK_INVALID sysclk rdelay gsrc gdst = (None, [])).
Proof.
  intros V src_time dst_time.
  assert (E : read_phc clkid sysclk rdelay (Some tsrc) (Some tdst)
              = (Some (to_s64 ((dst_time - src_time) - rdelay),
                       to_u64 dst_time), [])).
  { unfold read_phc.
    destruct (Z.eqb_spec clkid CLOCK_INVALID) as [I|_]; [contradiction|].
    rewrite read_phc_offset_bits, read_phc_timestamp_bits. reflexivity. }
  split; [exact E|]. split.
  - intros Ho Ht. rewrite E, (to_s64_small _ Ho), (to_u64_small _ Ht).
    reflexivity.
  - intros gsrc gdst. reflexivity.
Qed.

(** Source at 10 s + 5 ns, destination at 11 s + 7 ns, 100 ns read delay. *)
Lemma read_phc_offset_witness :
  read_phc example_phc CLOCK_REALTIME 100
           (Some {| tv_sec := 10; tv_nsec := 5 |})
           (Some {| tv_sec := 11; tv_nsec := 7 |})
  = (Some (999999902, 11000000007), []).
Proof.
  pose proof (read_phc_offset example_phc CLOCK_REALTIME 100
                {| tv_sec := 10; tv_nsec := 5 |}
                {| tv_sec := 11; tv_nsec := 7 |}) as H.
  assert (V : example_phc <> CLOCK_INVALID) by discriminate.
  destruct (H V) as [_ [F _]].
  apply F; unfold in_s64, in_u64, min_signed, max_signed, max_unsigned,
             half_modulus, modulus, timespec_ns; simpl; lia.
Defined.

(** ** [clock_step] *)

Lemma clock_step_time_fraction ns :
  0 <= snd (clock_step_time ns) < 1000000000.
Proof.
  unfold clock_step_time, clock_step_split.
  change NS_PER_SEC with 1000000000.
  set (m := if ns <? 0 then to_s64 (ns * -1) else ns).
  assert (Hm : (0 <= m /\ 0 <= Z.rem m 1000000000 < 1000000000)
               \/ (m <= 0 /\ -1000000000 < Z.rem m 1000000000 <= 0)).
  { destruct (Z.le_ge_cases 0 m) as [P|N].
    - left. split; [exact P|]. apply Z.rem_bound_pos; lia.
    - right. split; [exact N|].
      pose proof (Z.rem_bound_pos_neg m 1000000000). lia. }
  destruct (Z.ltb_spec ns 0) as [Neg|Pos].
  - destruct (Z.ltb_spec (-1 * Z.rem m 1000000000) 0); cbn [fst snd]; lia.
  - assert (0 <= m) by (subst m; destruct (Z.ltb_spec ns 0); lia).
    destruct (Z.ltb_spec (1 * Z.rem m 1000000000) 0); cbn [fst snd]; lia.
Qed.

Lemma clock_step_time_value ns :
  min_signed < ns <= max_signed ->
  fst (clock_step_time ns) * 1000000000 + snd (clock_step_time ns) = ns.
Proof.
  unfold min_signed, max_signed, half_modulus. intros R.
  unfold clock_step_time, clock_step_split.
  change NS_PER_SEC with 1000000000.
  destruct (Z.ltb_spec ns 0) as [Neg|Pos].
  - rewrite to_s64_small
      by (unfold in_s64, min_signed, max_signed, half_modulus; lia).
    pose proof (Z.quot_rem' (ns * -1) 1000000000) as D.
    destruct (Z.ltb_spec (-1 * Z.rem (ns * -1) 1000000000) 0);
      cbn [fst snd]; lia.
  - pose proof (Z.quot_rem' ns 1000000000) as D.
    destruct (Z.ltb_spec (1 * Z.rem ns 1000000000) 0); cbn [fst snd]; lia.
Qed.

Lemma clock_step_events clkid ns ret :
  clock_step clkid ns ret
  = Clock_adjtime clkid
      {| tx_modes := Z.lor ADJ_SETOFFSET ADJ_NANO;
         tx_freq := Some 0;
         tx_time_tv_sec := fst (clock_step_time ns);
         tx_time_tv_usec := snd (clock_step_time ns) |}
    :: (if ret <? 0 then [Stderr "failed to step clock"] else []).
Proof.
  unfold clock_step. destruct (clock_step_time ns) as [sec usec]. reflexivity.
Qed.

Lemma clock_step_submits clkid ns ret c tx :
  In (Clock_adjtime c tx) (clock_step clkid ns ret) ->
  0 <= tx_time_tv_usec tx < 1000000000.
Proof.
  rewrite clock_step_events. intros [E|I].
  - injection E as _ <-. simpl. apply clock_step_time_fraction.
  - destruct (ret <? 0); simpl in I; [destruct I as [I|[]]|destruct I].
    discriminate.
Qed.

Lemma clock_ppb_submits clkid ppb ret c tx :
  In (Clock_adjtime c tx) (clock_ppb clkid ppb ret) ->
  tx_time_tv_usec tx = 0.
Proof.
  unfold clock_ppb. intros [E|I].
  - injection E as _ <-. reflexivity.
  - destruct (ret <? 0); simpl in I; [destruct I as [I|[]]|destruct I].
    discriminate.
Qed.

(** C6.  For every step [ns], the one [struct timex] handed to
    [clock_adjtime] has [0 <= tv_usec < 1000000000]; its two time fields
    add up to [ns] (a second is taken off [tv_sec] when the signed
    fraction would be negative) for every [ns] whose opposite fits
    [int64_t].  A step of -1500000000 splits into sign -1, one second and
    a fraction of 500000000, and is submitted as [tv_sec = -2],
    [tv_usec = 500000000].  No call of the servo submits a negative
    fraction either. *)
Theorem clock_step_fraction_nonneg (clkid ns ret : Z) :
  clock_step clkid ns ret
  = Clock_adjtime clkid
      {| tx_modes := Z.lor ADJ_SETOFFSET ADJ_NANO;
         tx_freq := Some 0;
         tx_time_tv_sec := fst (clock_step_time ns);
         tx_time_tv_usec := snd (clock_step_time ns) |}
    :: (if ret <? 0 then [Stderr "failed to step clock"] else [])
  /\ 0 <= snd (clock_step_time ns) < 1000000000
  /\ (min_signed < ns <= max_signed ->
      fst (clock_step_time ns) * 1000000000 + snd (clock_step_time ns) = ns)
  /\ clock_step_split (-1500000000) = (-1, 1, 500000000)
  /\ clock_step_time (-1500000000) = (-2, 500000000)
  /\ (forall srv src dst offset ts kp ki c tx,
         In (Clock_adjtime c tx)
            (snd (do_servo srv src dst offset ts kp ki ret)) ->
         0 <= tx_time_tv_usec tx < 1000000000).
Proof.
  split; [apply clock_step_events|].
  split; [apply clock_step_time_fraction|].
  split; [apply clock_step_time_value|].
  split; [reflexivity|]. split; [reflexivity|].
  intros srv src dst offset ts kp ki c tx.
  assert (P : forall ppb, In (Clock_adjtime c tx) (clock_ppb dst ppb ret) ->
                          0 <= tx_time_tv_usec tx < 1000000000).
  { intros ppb I. rewrite (clock_ppb_submits _ _ _ _ _ I). lia. }
  unfold do_servo.
  destruct (state srv); cbn [snd fst].
  - intros [E|I]; [discriminate | eauto].
  - intros [E|[]]; discriminate.
  - intros [E|I]; [discriminate | eauto].
  - intros [E|I]; [discriminate | eapply clock_step_submits; eauto].
  - destruct (_ <? _)%float; [|destruct (_ <? _)%float]; cbn [snd fst];
      intros [E|I]; try discriminate; eauto.
Qed.

(** A step back by one and a half seconds. *)
Lemma clock_step_fraction_nonneg_witness :
  clock_step CLOCK_REALTIME (-1500000000) 0
  = [Clock_adjtime CLOCK_REALTIME
       {| tx_modes := 0x2100;
          tx_freq := Some 0;
          tx_time_tv_sec := -2;
          tx_time_tv_usec := 500000000 |}]
  /\ -2 * 1000000000 + 500000000 = -1500000000.
Proof.
  pose proof (clock_step_fraction_nonneg CLOCK_REALTIME (-1500000000) 0)
    as [E [_ [V _]]].
  split.
  - exact E.
  - apply V. unfold min_signed, max_signed, half_modulus. simpl. lia.
Defined.

(** ** [clock_ppb] *)

Lemma SFtrunc_finite s m e :
  Double.SFtrunc (S754_finite s m e)
  = Some (Z.quot (cond_Zopp s (Zpos m) * 2 ^ Z.max e 0) (2 ^ Z.max (- e) 0)).
Proof.
  unfold Double.SFtrunc. f_equal.
  destruct e as [|p|p].
  - simpl Z.max. rewrite Z.shiftl_0_r, Z.pow_0_r, Z.mul_1_r, Z.quot_1_r.
    reflexivity.
  - replace (Z.max (Z.pos p) 0) with (Z.pos p) by lia.
    replace (Z.max (- Z.pos p) 0) with 0 by lia.
    rewrite Z.pow_0_r, Z.quot_1_r, Z.shiftl_mul_pow2 by lia.
    destruct s; unfold cond_Zopp; [|reflexivity].
    change (Z.neg m) with (- Z.pos m). ring.
  - replace (Z.max (Z.neg p) 0) with 0 by lia.
    replace (Z.max (- Z.neg p) 0) with (Z.pos p) by lia.
    rewrite Z.pow_0_r, Z.mul_1_r, Z.shiftr_div_pow2 by lia.
    assert (0 < 2 ^ Z.pos p) by (apply Z.pow_pos_nonneg; lia).
    destruct s; simpl cond_Zopp.
    + change (Z.neg m) with (- Z.pos m).
      rewrite Z.quot_opp_l by lia. rewrite Z.quot_div_nonneg by lia.
      reflexivity.
    + rewrite Z.quot_div_nonneg by lia. reflexivity.
Qed.

Lemma to_long_truncates x : Double.to_long x = truncate_spec x.
Proof.
  unfold Double.to_long, truncate_spec.
  destruct (Prim2SF x) as [s|s| |s m e]; try reflexivity.
  rewrite SFtrunc_finite. reflexivity.
Qed.

(** One part per million, 1000 ppb, is [2^16] units of [tx.freq]. *)
Lemma scale_factor_ppm : (1000 * 65.536)%float = Double.of_Z (2 ^ 16).
Proof. vm_compute. reflexivity. Qed.

(** C7.  [clock_ppb] makes one [clock_adjtime] call, in mode
    [ADJ_FREQUENCY], whose [freq] field is the product [ppb * 65.536]
    converted to [long], that is, with its fraction discarded toward zero;
    the field has no defined value when the product is not finite or its
    integral part does not fit [long].  The limit 512000 ppb is submitted
    as [2^25], 1 ppb as 65 and -1 ppb as -65. *)
Theorem clock_ppb_scaling (clkid : Z) (ppb : float) (ret : Z) :
  clock_ppb clkid ppb ret
  = Clock_adjtime clkid
      {| tx_modes := ADJ_FREQUENCY;
         tx_freq := truncate_spec (ppb * 65.536)%float;
         tx_time_tv_sec := 0;
         tx_time_tv_usec := 0 |}
    :: (if ret <? 0 then [Stderr "failed to adjust the clock"] else [])
  /\ truncate_spec (512000 * 65.536)%float = Some (2 ^ 25)
  /\ truncate_spec (-512000 * 65.536)%float = Some (- 2 ^ 25)
  /\ truncate_spec (1 * 65.536)%float = Some 65
  /\ truncate_spec (-1 * 65.536)%float = Some (-65)
  /\ truncate_spec (0 * 65.536)%float = Some 0.
Proof.
  split.
  - unfold clock_ppb. rewrite to_long_truncates. reflexivity.
  - repeat split; vm_compute; reflexivity.
Qed.

(** ** The control loop *)

Lemma do_servo_called srv src dst offset ts kp ki ret :
  servo_called (snd (do_servo srv src dst offset ts kp ki ret)) = true.
Proof.
  unfold do_servo.
  destruct (match state srv with
            | SAMPLE_0 => _ | SAMPLE_1 => _ | SAMPLE_2 => _
            | SAMPLE_3 => _ | SAMPLE_N => _ end) as [srv1 out].
  reflexivity.
Qed.

Lemma read_pps_quiet fetch :
  servo_called (snd (read_pps fetch)) = false
  /\ clock_adjusted (snd (read_pps fetch)) = false.
Proof. destruct fetch as [[sec nsec]|]; split; reflexivity. Qed.

Lemma read_phc_quiet clkid sysclk rdelay gsrc gdst :
  servo_called (snd (read_phc clkid sysclk rdelay gsrc gdst)) = false
  /\ clock_adjusted (snd (read_phc clkid sysclk rdelay gsrc gdst)) = false.
Proof.
  unfold read_phc. destruct (clkid =? CLOCK_INVALID); [split; reflexivity|].
  destruct gsrc; [|split; reflexivity].
  destruct gdst; split; reflexivity.
Qed.

Lemma servo_called_app out1 out2 :
  servo_called (out1 ++ out2) = servo_called out1 || servo_called out2.
Proof. apply existsb_app. Qed.

Lemma clock_adjusted_app out1 out2 :
  clock_adjusted (out1 ++ out2) = clock_adjusted out1 || clock_adjusted out2.
Proof. apply existsb_app. Qed.

Lemma servo_called_cons e out :
  servo_called (e :: out) = is_servo_line e || servo_called out.
Proof. reflexivity. Qed.

Lemma clock_adjusted_cons e out :
  clock_adjusted (e :: out) = is_adjustment e || clock_adjusted out.
Proof. reflexivity. Qed.

Ltac split_events :=
  repeat (rewrite servo_called_app || rewrite servo_called_cons
          || rewrite clock_adjusted_app || rewrite clock_adjusted_cons);
  cbn [is_servo_line is_adjustment orb].

(** The servo runs in a pass exactly when [read_phc] delivered a sample
    and, with a PPS descriptor, [read_pps] did too. *)
Lemma loop_body_servo_called c fd srv e :
  servo_called (snd (loop_body c fd srv e))
  = sampled (read_phc (cfg_src c) (cfg_dst c) (cfg_rdelay c)
                      (src_gettime e) (dst_gettime e))
    && (if fd >? 0 then sampled (read_pps (pps_fetch e)) else true).
Proof.
  unfold loop_body, sampled.
  pose proof (read_phc_quiet (cfg_src c) (cfg_dst c) (cfg_rdelay c)
                             (src_gettime e) (dst_gettime e)) as [Q _].
  pose proof (read_pps_quiet (pps_fetch e)) as [P _].
  destruct (fd >? 0).
  - destruct (read_pps (pps_fetch e)) as [[[po pt]|] out1];
      destruct (read_phc _ _ _ _ _) as [[[ho ht]|] out2];
      cbn [fst snd] in *; try (rewrite ?andb_false_r; assumption).
    + pose proof (do_servo_called srv (cfg_src c) (cfg_dst c) po pt
                    (cfg_kp c) (cfg_ki c) (adjtime_ret e)) as D.
      destruct (do_servo _ _ _ _ _ _ _ _) as [srv' out3].
      cbn [fst snd] in *. split_events.
      rewrite D, !orb_true_r. reflexivity.
    + split_events. rewrite P, Q. reflexivity.
  - destruct (read_phc _ _ _ _ _) as [[[ho ht]|] out2]; cbn [fst snd] in *.
    + pose proof (do_servo_called srv (cfg_src c) (cfg_dst c) ho ht
                    (cfg_kp c) (cfg_ki c) (adjtime_ret e)) as D.
      destruct (do_servo _ _ _ _ _ _ _ _) as [srv' out3].
      cbn [fst snd] in *. split_events.
      rewrite D, !orb_true_r. reflexivity.
    + split_events. rewrite Q. reflexivity.
Qed.

Lemma read_phc_invalid sysclk rdelay gsrc gdst :
  read_phc CLOCK_INVALID sysclk rdelay gsrc gdst = (None, []).
Proof. reflexivity. Qed.

(** Without a valid source handle a pass leaves the servo alone. *)
Lemma loop_body_no_source c fd srv e :
  cfg_src c = CLOCK_INVALID ->
  fst (loop_body c fd srv e) = srv
  /\ servo_called (snd (loop_body c fd srv e)) = false
  /\ clock_adjusted (snd (loop_body c fd srv e)) = false.
Proof.
  intros I. unfold loop_body. rewrite I, !read_phc_invalid.
  pose proof (read_pps_quiet (pps_fetch e)) as [P A].
  destruct (fd >? 0).
  - destruct (read_pps (pps_fetch e)) as [[[po pt]|] out1]; cbn [fst snd] in *.
    + split; [reflexivity|]. split_events. rewrite P, A. split; reflexivity.
    + repeat split; assumption.
  - repeat split.
Qed.

Lemma run_loop_no_source c fd srv es :
  cfg_src c = CLOCK_INVALID ->
  fst (run_loop c fd srv es) = srv
  /\ servo_called (snd (run_loop c fd srv es)) = false
  /\ clock_adjusted (snd (run_loop c fd srv es)) = false.
Proof.
  intros I. induction es as [|e es IH]; [repeat split|].
  cbn [run_loop].
  destruct (loop_body_no_source c fd srv e I) as [S [N A]].
  destruct (loop_body c fd srv e) as [srv1 out1]. cbn [fst snd] in *.
  subst srv1.
  destruct (run_loop c fd srv es) as [srv2 out2]. cbn [fst snd] in *.
  destruct IH as [S2 [N2 A2]].
  split; [exact S2|]. split_events. rewrite N, A, N2, A2. split; reflexivity.
Qed.

Lemma read_phc_sampled clkid sysclk rdelay gsrc gdst :
  sampled (read_phc clkid sysclk rdelay gsrc gdst)
  = negb (clkid =? CLOCK_INVALID) && answered gsrc && answered gdst.
Proof.
  unfold read_phc, sampled.
  destruct (clkid =? CLOCK_INVALID); [reflexivity|].
  destruct gsrc; [|reflexivity]. destruct gdst; reflexivity.
Qed.

Lemma main_no_source c s es :
  cfg_src c = CLOCK_INVALID ->
  servo_called (snd (main c s es)) = false
  /\ clock_adjusted (snd (main c s es)) = false
  /\ (forall srv, fst (main c s es) = Looping srv -> srv = servo_init).
Proof.
  intros I. unfold main. rewrite I.
  assert (L : forall fd,
             let '(srv, out) := run_loop c fd servo_init es in
             servo_called out = false /\ clock_adjusted out = false
             /\ srv = servo_init).
  { intros fd.
    destruct (run_loop_no_source c fd servo_init es I) as [S [N A]].
    destruct (run_loop c fd servo_init es) as [srv out]. auto. }
  destruct (negb _ || _); [repeat split; discriminate|].
  cbn [Z.eqb CLOCK_INVALID Pos.eqb negb app].
  destruct (cfg_device c) as [device|].
  - destruct (open_ret s <? 0); [repeat split; discriminate|].
    specialize (L (open_ret s)).
    destruct (run_loop c (open_ret s) servo_init es) as [srv out].
    destruct L as [N [A S]]. cbn [fst snd].
    repeat split; try assumption. intros srv0 E. congruence.
  - specialize (L 0).
    destruct (run_loop c 0 servo_init es) as [srv out].
    destruct L as [N [A S]]. cbn [fst snd].
    repeat split; try assumption. intros srv0 E. congruence.
Qed.

(** C8.  In a pass of the loop the servo is called exactly when [read_phc]
    returned a sample (and, with a PPS descriptor, [read_pps] did as
    well), and [read_phc] returns a sample only for a source handle other
    than [CLOCK_INVALID] with both clock reads answered.  So when the
    source handle is [CLOCK_INVALID] no pass calls the servo or adjusts a
    clock, the servo is left as it was, and the whole program never leaves
    the initial servo, PPS fetches succeeding or not. *)
Theorem loop_servo_requires_source
    (c : config) (fd : Z) (srv : servo) (s : startup_env)
    (es : list iter_env) :
  cfg_src c = CLOCK_INVALID ->
  (forall c' fd' srv' e,
      servo_called (snd (loop_body c' fd' srv' e))
      = sampled (read_phc (cfg_src c') (cfg_dst c') (cfg_rdelay c')
                          (src_gettime e) (dst_gettime e))
        && (if fd' >? 0 then sampled (read_pps (pps_fetch e)) else true))
  /\ (forall clkid sysclk rdelay gsrc gdst,
         sampled (read_phc clkid sysclk rdelay gsrc gdst)
         = negb (clkid =? CLOCK_INVALID) && answered gsrc && answered gdst)
  /\ fst (run_loop c fd srv es) = srv
  /\ servo_called (snd (run_loop c fd srv es)) = false
  /\ clock_adjusted (snd (run_loop c fd srv es)) = false
  /\ servo_called (snd (main c s es)) = false
  /\ clock_adjusted (snd (main c s es)) = false
  /\ (forall srv', fst (main c s es) = Looping srv' -> srv' = servo_init).
Proof.
  intros I.
  split; [intros; apply loop_body_servo_called|].
  split; [intros; apply read_phc_sampled|].
  destruct (run_loop_no_source c fd srv es I) as [S [N A]].
  destruct (main_no_source c s es I) as [MN [MA MS]].
  repeat split; assumption.
Qed.

Lemma loop_servo_requires_source_witness :
  main pps_only
       {| open_ret := 3; now_gettime := None; settime_ret := 0 |}
       pps_only_passes
  = (Looping servo_init,
     [Print_pps 250; Stderr "ioctl PPS_FETCH"; Print_pps (-100000000)])
  /\ servo_called
       (snd (main pps_only
                  {| open_ret := 3; now_gettime := None; settime_ret := 0 |}
                  pps_only_passes)) = false.
Proof.
  split.
  - vm_compute. reflexivity.
  - exact (proj1 (proj2 (proj2 (proj2 (proj2 (proj2
             (loop_servo_requires_source
                pps_only 3 servo_init
                {| open_ret := 3; now_gettime := None; settime_ret := 0 |}
                pps_only_passes eq_refl))))))).
Defined.

(** ** Start-up *)

(** The test that follows the option loop.  When the destination handle
    is [CLOCK_INVALID], or no PPS device is given and the source handle is
    [CLOCK_INVALID], [main] prints the usage text and returns -1, a
    non-zero exit status (255), whatever the system would have answered
    later: no device is opened, no clock is set, no pass of the loop is
    made and the servo is not called. *)
Theorem main_rejects_bad_configuration
    (c : config) (s : startup_env) (es : list iter_env) :
  cfg_dst c = CLOCK_INVALID
  \/ (cfg_device c = None /\ cfg_src c = CLOCK_INVALID) ->
  main c s es = (Exited (-1), [Print_usage])
  /\ exit_status (-1) = 255
  /\ exit_status (-1) <> 0
  /\ servo_called (snd (main c s es)) = false.
Proof.
  intros H.
  assert (E : main c s es = (Exited (-1), [Print_usage])).
  { unfold main. destruct H as [D|[N S]].
    - rewrite D. rewrite orb_true_r. reflexivity.
    - rewrite N, S. reflexivity. }
  rewrite E. repeat split. discriminate.
Qed.

(** The program started without any option: [dst = CLOCK_REALTIME], no
    device, no source. *)
Lemma main_rejects_bad_configuration_witness :
  main {| cfg_kp := KP; cfg_ki := KI; cfg_device := None;
          cfg_src := CLOCK_INVALID; cfg_dst := CLOCK_REALTIME;
          cfg_rdelay := 0 |}
       {| open_ret := 3; now_gettime := None; settime_ret := 0 |}
       pps_only_passes
  = (Exited (-1), [Print_usage]).
Proof.
  apply (main_rejects_bad_configuration
           {| cfg_kp := KP; cfg_ki := KI; cfg_device := None;
              cfg_src := CLOCK_INVALID; cfg_dst := CLOCK_REALTIME;
              cfg_rdelay := 0 |}
           {| open_ret := 3; now_gettime := None; settime_ret := 0 |}
           pps_only_passes).
  right. split; reflexivity.
Defined.

(** * Further properties *)

(** ** More facts about [double] *)



Lemma binary_round_aux_opp s m e l :
  binary_round_aux prec emax (negb s) m e l
  = SFopp (binary_round_aux prec emax s m e l).
Proof.
  unfold binary_round_aux.
  destruct (shr_fexp prec emax m e l) as [mrs' e'].
  destruct (shr_fexp prec emax _ e' loc_Exact) as [mrs'' e''].
  destruct (shr_m mrs''); try reflexivity.
  destruct (e'' <=? emax - prec); reflexivity.
Qed.

Lemma xorb_negb_l a b : xorb (negb a) b = negb (xorb a b).
Proof. destruct a, b; reflexivity. Qed.

Lemma SFmul_opp_l x y :
  SFmul prec emax (SFopp x) y = SFopp (SFmul prec emax x y).
Proof.
  destruct x as [sx|sx| |sx mx ex], y as [sy|sy| |sy my ey];
    cbn [SFopp SFmul]; rewrite ?xorb_negb_l; try reflexivity.
  apply binary_round_aux_opp.
Qed.

Lemma mul_opp_l (x y : float) : (- x * y = - (x * y))%float.
Proof.
  apply Prim2SF_inj.
  rewrite mul_spec, !opp_spec, mul_spec. apply SFmul_opp_l.
Qed.

Lemma SFtrunc_opp x :
  Double.SFtrunc (SFopp x) = option_map Z.opp (Double.SFtrunc x).
Proof.
  destruct x as [s|s| |s m e]; try reflexivity.
  cbn [SFopp Double.SFtrunc option_map]. f_equal.
  destruct s; cbn [negb cond_Zopp]; lia.
Qed.

(** The conversion to [long] discards the fraction toward zero, so it
    commutes with the change of sign, [LONG_MIN] apart. *)
Lemma to_long_opp x z :
  Double.to_long x = Some z -> z <> min_signed ->
  Double.to_long (- x)%float = Some (- z).
Proof.
  unfold Double.to_long. rewrite opp_spec, SFtrunc_opp.
  destruct (Double.SFtrunc (Prim2SF x)) as [t|]; [|discriminate].
  cbn [option_map].
  destruct (Z.leb_spec min_signed t); [|discriminate].
  destruct (Z.leb_spec t max_signed); [|discriminate].
  cbn [andb]. intros E N. injection E as ->.
  unfold min_signed, max_signed, half_modulus in *.
  destruct (Z.leb_spec (- 2 ^ 63) (- z)); [|lia].
  destruct (Z.leb_spec (- z) (2 ^ 63 - 1)); [reflexivity|lia].
Qed.

Lemma mul_zero_offset (k : float) :
  is_finite k = true ->
  exists sz, Prim2SF (k * Double.of_Z 0)%float = S754_zero sz.
Proof.
  unfold is_finite. intros F. rewrite mul_spec.
  change (Prim2SF (Double.of_Z 0)) with (S754_zero false).
  destruct (Prim2SF k) as [s|s| |s m e]; try discriminate;
    eexists; reflexivity.
Qed.

Lemma add_zero_l (z d : float) sz s m e :
  Prim2SF z = S754_zero sz -> Prim2SF d = S754_finite s m e ->
  (z + d)%float = d.
Proof.
  intros Z D. apply Prim2SF_inj. rewrite add_spec, Z, D. reflexivity.
Qed.

Lemma add_zero_r (z d : float) sz s m e :
  Prim2SF z = S754_zero sz -> Prim2SF d = S754_finite s m e ->
  (d + z)%float = d.
Proof.
  intros Z D. apply Prim2SF_inj. rewrite add_spec, Z, D. reflexivity.
Qed.

(** ** What the servo submits *)

Lemma adjustments_app out1 out2 :
  adjustments (out1 ++ out2) = adjustments out1 ++ adjustments out2.
Proof. apply flat_map_app. Qed.

Lemma clock_ppb_adjustments clkid ppb ret :
  adjustments (clock_ppb clkid ppb ret)
  = [(clkid, {| tx_modes := ADJ_FREQUENCY;
                tx_freq := Double.to_long (ppb * 65.536)%float;
                tx_time_tv_sec := 0;
                tx_time_tv_usec := 0 |})].
Proof. unfold clock_ppb. destruct (ret <? 0); reflexivity. Qed.

Lemma clock_step_adjustments clkid ns ret :
  adjustments (clock_step clkid ns ret)
  = [(clkid, {| tx_modes := Z.lor ADJ_SETOFFSET ADJ_NANO;
                tx_freq := Some 0;
                tx_time_tv_sec := fst (clock_step_time ns);
                tx_time_tv_usec := snd (clock_step_time ns) |})].
Proof. rewrite clock_step_events. destruct (ret <? 0); reflexivity. Qed.

Lemma do_servo_sample_0 srv src dst offset ts kp ki ret :
  state srv = SAMPLE_0 ->
  do_servo srv src dst offset ts kp ki ret
  = ({| last_ts := ts; drift := drift srv; state := SAMPLE_1 |},
     Print_servo SAMPLE_0 (ts / NS_PER_SEC) (ts mod NS_PER_SEC) (drift srv)
     :: clock_ppb dst 0%float ret).
Proof. intros S. unfold do_servo. rewrite S. reflexivity. Qed.

Lemma do_servo_sample_1 srv src dst offset ts kp ki ret :
  state srv = SAMPLE_1 ->
  do_servo srv src dst offset ts kp ki ret
  = ({| last_ts := ts; drift := drift srv; state := SAMPLE_2 |},
     [Print_servo SAMPLE_1 (ts / NS_PER_SEC) (ts mod NS_PER_SEC)
                  (drift srv)]).
Proof. intros S. unfold do_servo. rewrite S. reflexivity. Qed.

Lemma do_servo_sample_3 srv src dst offset ts kp ki ret :
  state srv = SAMPLE_3 ->
  do_servo srv src dst offset ts kp ki ret
  = ({| last_ts := ts; drift := drift srv; state := SAMPLE_N |},
     Print_servo SAMPLE_3 (ts / NS_PER_SEC) (ts mod NS_PER_SEC) (drift srv)
     :: clock_step dst (to_s64 (- offset)) ret).
Proof. intros S. unfold do_servo. rewrite S. reflexivity. Qed.

Lemma do_servo_tracking srv src dst offset ts kp ki ret :
  state srv = SAMPLE_N ->
  snd (do_servo srv src dst offset ts kp ki ret)
  = Print_servo SAMPLE_N (ts / NS_PER_SEC) (ts mod NS_PER_SEC) (drift srv)
    :: clock_ppb dst (tracking_correction kp ki (drift srv) offset) ret.
Proof.
  intros T. unfold do_servo, tracking_correction. rewrite T.
  destruct (_ <? _)%float; [reflexivity|].
  destruct (_ <? _)%float; reflexivity.
Qed.

(** What a call emits after its state line: nothing in [SAMPLE_1], one
    phase step in [SAMPLE_3], one frequency adjustment otherwise. *)
Lemma do_servo_events srv src dst offset ts kp ki ret :
  exists rest,
    snd (do_servo srv src dst offset ts kp ki ret)
    = Print_servo (state srv) (ts / NS_PER_SEC) (ts mod NS_PER_SEC)
                  (drift srv) :: rest
    /\ match state srv with
       | SAMPLE_1 => rest = []
       | SAMPLE_3 => rest = clock_step dst (to_s64 (- offset)) ret
       | _ => exists ppb, rest = clock_ppb dst ppb ret
       end.
Proof.
  destruct (state srv) eqn:S.
  - rewrite do_servo_sample_0 by exact S.
    eexists. split; [reflexivity|]. eauto.
  - rewrite do_servo_sample_1 by exact S.
    eexists. split; reflexivity.
  - rewrite do_servo_sample_2 by exact S.
    eexists. split; [reflexivity|]. eauto.
  - rewrite do_servo_sample_3 by exact S.
    eexists. split; reflexivity.
  - rewrite do_servo_tracking by exact S.
    eexists. split; [reflexivity|]. eauto.
Qed.

Lemma do_servo_servo_independent
    srv src src' dst dst' offset ts kp ki ret ret' :
  fst (do_servo srv src dst offset ts kp ki ret)
  = fst (do_servo srv src' dst' offset ts kp ki ret').
Proof.
  unfold do_servo.
  destruct (state srv); try reflexivity.
  destruct (_ <? _)%float; [reflexivity|].
  destruct (_ <? _)%float; reflexivity.
Qed.


(** X1.  Whatever the state, a call of the servo leaves [ts] in [last_ts];
    in [SAMPLE_0], [SAMPLE_1] and [SAMPLE_3] it leaves the drift as it
    was. *)
Theorem do_servo_bookkeeping
    (srv : servo) (src dst offset ts : Z) (kp ki : float) (ret : Z) :
  let after := fst (do_servo srv src dst offset ts kp ki ret) in
  last_ts after = ts
  /\ (state srv = SAMPLE_0 \/ state srv = SAMPLE_1 \/ state srv = SAMPLE_3 ->
      drift after = drift srv).
Proof.
  unfold do_servo. split.
  - destruct (state srv); try reflexivity.
    destruct (_ <? _)%float; [reflexivity|].
    destruct (_ <? _)%float; reflexivity.
  - intros [S|[S|S]]; rewrite S; reflexivity.
Qed.

Lemma do_servo_bookkeeping_witness :
  let srv := {| last_ts := 7; drift := 42%float; state := SAMPLE_3 |} in
  drift (fst (do_servo srv example_phc CLOCK_REALTIME 5 1000 KP KI 0))
  = 42%float.
Proof.
  intros srv.
  apply (proj2 (do_servo_bookkeeping srv example_phc CLOCK_REALTIME 5 1000
                                     KP KI 0)).
  right. right. reflexivity.
Defined.

(** X2.  A call of the servo makes no [clock_adjtime] call in [SAMPLE_1]
    and exactly one in every other state, and that call is on the
    destination clock: the source clock is never adjusted. *)
Theorem do_servo_adjusts_destination_once
    (srv : servo) (src dst offset ts : Z) (kp ki : float) (ret : Z) :
  let adj := adjustments (snd (do_servo srv src dst offset ts kp ki ret)) in
  (forall clkid tx, In (clkid, tx) adj -> clkid = dst)
  /\ List.length adj
     = match state srv with SAMPLE_1 => 0%nat | _ => 1%nat end.
Proof.
  destruct (do_servo_events srv src dst offset ts kp ki ret) as [rest [E R]].
  cbv zeta. rewrite E.
  change (adjustments (?e :: rest)) with (adjustments rest).
  assert (P : forall ppb,
             (forall clkid tx,
                 In (clkid, tx) (adjustments (clock_ppb dst ppb ret)) ->
                 clkid = dst)
             /\ List.length (adjustments (clock_ppb dst ppb ret)) = 1%nat).
  { intros ppb. rewrite clock_ppb_adjustments.
    split; [|reflexivity]. intros clkid tx [I|[]]. congruence. }
  destruct (state srv).
  - destruct R as [ppb ->]. apply P.
  - subst rest. split; [intros clkid tx []|reflexivity].
  - destruct R as [ppb ->]. apply P.
  - subst rest. rewrite clock_step_adjustments.
    split; [|reflexivity]. intros clkid tx [I|[]]. congruence.
  - destruct R as [ppb ->]. apply P.
Qed.

(** X3.  The servo after a call does not depend on the clock ids nor on
    what [clock_adjtime] returned (a failed adjustment is only reported),
    and the adjustments submitted do not depend on the source id nor on
    that return value. *)
Theorem do_servo_ignores_source_and_result
    (srv : servo) (src src' dst dst' offset ts : Z) (kp ki : float)
    (ret ret' : Z) :
  fst (do_servo srv src dst offset ts kp ki ret)
  = fst (do_servo srv src' dst' offset ts kp ki ret')
  /\ adjustments (snd (do_servo srv src dst offset ts kp ki ret))
     = adjustments (snd (do_servo srv src' dst offset ts kp ki ret')).
Proof.
  split; [apply do_servo_servo_independent|].
  destruct (state srv) eqn:S.
  - rewrite !do_servo_sample_0 by exact S. cbn [snd].
    change (adjustments (?e :: ?l)) with (adjustments l).
    rewrite !clock_ppb_adjustments. reflexivity.
  - rewrite !do_servo_sample_1 by exact S. reflexivity.
  - rewrite !do_servo_sample_2 by exact S. cbn [snd].
    change (adjustments (?e :: ?l)) with (adjustments l).
    rewrite !clock_ppb_adjustments. reflexivity.
  - rewrite !do_servo_sample_3 by exact S. cbn [snd].
    change (adjustments (?e :: ?l)) with (adjustments l).
    rewrite !clock_step_adjustments. reflexivity.
  - rewrite !do_servo_tracking by exact S.
    change (adjustments (?e :: ?l)) with (adjustments l).
    rewrite !clock_ppb_adjustments. reflexivity.
Qed.

(** X4.  The first four calls from the initial servo: the frequency is
    zeroed, nothing is done, the frequency is set from the interval between
    the second and the third timestamp, and the clock is stepped by the
    opposite of the fourth offset.  The servo is then in [SAMPLE_N] with
    that interval's excess over one second as drift; the first three
    offsets and the first timestamp play no part. *)
Theorem servo_bootstrap_run
    (src dst : Z) (kp ki : float)
    (o0 t0 r0 o1 t1 r1 o2 t2 r2 o3 t3 r3 : Z) :
  let measured := to_s64 (t2 - t1 - 1000000000) in
  let run :=
    servo_calls servo_init src dst kp ki
                [(o0, t0, r0); (o1, t1, r1); (o2, t2, r2); (o3, t3, r3)] in
  fst run
  = {| last_ts := t3; drift := Double.of_Z measured; state := SAMPLE_N |}
  /\ adjustments (snd run)
     = adjustments (clock_ppb dst 0%float r0)
       ++ adjustments (clock_ppb dst (Double.of_Z (to_s64 (- measured))) r2)
       ++ adjustments (clock_step dst (to_s64 (- o3)) r3).
Proof.
  cbv zeta. cbn [servo_calls].
  rewrite do_servo_sample_0 by reflexivity. cbv beta iota.
  rewrite do_servo_sample_1 by reflexivity. cbv beta iota.
  rewrite do_servo_sample_2 by reflexivity. cbv beta iota.
  rewrite do_servo_sample_3 by reflexivity. cbv beta iota.
  cbn [last_ts drift fst snd].
  change NS_PER_SEC with 1000000000.
  rewrite neg_to_s64.
  split; [reflexivity|].
  rewrite app_nil_r.
  repeat (rewrite adjustments_app
          || change (adjustments (Print_servo ?a ?b ?c ?d :: ?l))
               with (adjustments l)).
  cbn [adjustments flat_map app]. reflexivity.
Qed.

(** X5.  Anti-windup over a run: in [SAMPLE_N], as long as every sample
    drives [ppb] below -512000 or above 512000 for the current drift, the
    drift is the same after any number of calls and the servo stays in
    [SAMPLE_N]. *)
Theorem servo_saturated_drift_frozen
    (srv : servo) (src dst : Z) (kp ki : float) (samples : list (Z * Z * Z)) :
  state srv = SAMPLE_N ->
  Forall (fun s => saturates kp ki (drift srv) (fst (fst s)) = true) samples ->
  let after := fst (servo_calls srv src dst kp ki samples) in
  drift after = drift srv /\ state after = SAMPLE_N.
Proof.
  revert srv. induction samples as [|[[o t] r] rest IH]; intros srv T F.
  - split; [reflexivity|exact T].
  - inversion F as [|s l Hs Hrest]; subst. cbn [fst] in Hs.
    cbn [servo_calls].
    assert (E : fst (do_servo srv src dst o t kp ki r) = set_last_ts srv t).
    { unfold saturates in Hs. rewrite min_ppb_double, max_ppb_double in Hs.
      destruct (pi_ppb kp ki (drift srv) o <? -512000)%float eqn:L.
      - rewrite (tracking_below srv src dst o t kp ki r T L). reflexivity.
      - cbn [orb] in Hs.
        rewrite (tracking_above srv src dst o t kp ki r T Hs). reflexivity. }
    destruct (do_servo srv src dst o t kp ki r) as [srv1 out1].
    cbn [fst] in E. subst srv1.
    specialize (IH (set_last_ts srv t) T Hrest).
    destruct (servo_calls (set_last_ts srv t) src dst kp ki rest)
      as [srv2 out2].
    exact IH.
Qed.

(** Three samples that saturate the output at drift 500000. *)
Lemma servo_saturated_drift_frozen_witness :
  let srv := {| last_ts := 0; drift := 500000%float; state := SAMPLE_N |} in
  drift (fst (servo_calls srv example_phc CLOCK_REALTIME KP KI
                [(20000, 1000000000, 0); (50000, 2000000000, 0);
                 (12001, 3000000000, -1)]))
  = 500000%float.
Proof.
  intros srv.
  apply (servo_saturated_drift_frozen srv example_phc CLOCK_REALTIME KP KI).
  - reflexivity.
  - repeat constructor.
Defined.



(** X7.  In [SAMPLE_3], for an offset whose opposite fits [int64_t], the
    one adjustment submitted is a phase step ([ADJ_SETOFFSET | ADJ_NANO])
    of the destination clock whose two time fields add up to [- offset],
    with [0 <= tv_usec < 1000000000]; the drift is kept and the servo moves
    to [SAMPLE_N]. *)
Theorem servo_phase_step
    (srv : servo) (src dst offset ts : Z) (kp ki : float) (ret : Z) :
  state srv = SAMPLE_3 ->
  min_signed < offset <= max_signed ->
  exists sec usec,
    adjustments (snd (do_servo srv src dst offset ts kp ki ret))
    = [(dst, {| tx_modes := Z.lor ADJ_SETOFFSET ADJ_NANO;
                tx_freq := Some 0;
                tx_time_tv_sec := sec;
                tx_time_tv_usec := usec |})]
    /\ sec * 1000000000 + usec = - offset
    /\ 0 <= usec < 1000000000
    /\ fst (do_servo srv src dst offset ts kp ki ret)
       = {| last_ts := ts; drift := drift srv; state := SAMPLE_N |}.
Proof.
  intros S R.
  assert (N : to_s64 (- offset) = - offset).
  { apply to_s64_small. revert R.
    unfold in_s64, min_signed, max_signed, half_modulus. lia. }
  exists (fst (clock_step_time (- offset))), (snd (clock_step_time (- offset))).
  rewrite do_servo_sample_3 by exact S. cbn [fst snd]. rewrite N.
  change (adjustments (?e :: ?l)) with (adjustments l).
  rewrite clock_step_adjustments.
  split; [reflexivity|]. split; [|split].
  - apply clock_step_time_value. revert R.
    unfold min_signed, max_signed, half_modulus. lia.
  - apply clock_step_time_fraction.
  - reflexivity.
Qed.

Lemma servo_phase_step_witness :
  let srv := {| last_ts := 0; drift := 3%float; state := SAMPLE_3 |} in
  exists sec usec,
    adjustments (snd (do_servo srv example_phc CLOCK_REALTIME 1500000000
                               1000000000 KP KI 0))
    = [(CLOCK_REALTIME, {| tx_modes := Z.lor ADJ_SETOFFSET ADJ_NANO;
                           tx_freq := Some 0;
                           tx_time_tv_sec := sec;
                           tx_time_tv_usec := usec |})]
    /\ sec * 1000000000 + usec = - 1500000000
    /\ 0 <= usec < 1000000000
    /\ fst (do_servo srv example_phc CLOCK_REALTIME 1500000000
                     1000000000 KP KI 0)
       = {| last_ts := 1000000000; drift := 3%float; state := SAMPLE_N |}.
Proof.
  intros srv.
  apply (servo_phase_step srv example_phc CLOCK_REALTIME 1500000000
                          1000000000 KP KI 0 eq_refl).
  unfold min_signed, max_signed, half_modulus. simpl. lia.
Defined.

(** X8.  In [SAMPLE_N] a sample of offset 0 holds the frequency: with
    finite gains and a finite non-zero drift within the limits, the drift
    is unchanged and the correction handed to [clock_ppb] is the opposite
    of the drift. *)
Theorem servo_zero_offset_holds
    (srv : servo) (src dst ts : Z) (kp ki : float) (ret : Z)
    (s : bool) (m : positive) (e : Z) :
  state srv = SAMPLE_N ->
  is_finite kp = true -> is_finite ki = true ->
  Prim2SF (drift srv) = S754_finite s m e ->
  (drift srv <? -512000)%float = false ->
  (512000 <? drift srv)%float = false ->
  do_servo srv src dst 0 ts kp ki ret
  = (set_last_ts srv ts,
     Print_servo SAMPLE_N (ts / NS_PER_SEC) (ts mod NS_PER_SEC) (drift srv)
     :: clock_ppb dst (- drift srv)%float ret).
Proof.
  intros T Fp Fi D L H.
  destruct (mul_zero_offset kp Fp) as [sp Zp].
  destruct (mul_zero_offset ki Fi) as [si Zi].
  assert (P : pi_ppb kp ki (drift srv) 0 = drift srv).
  { unfold pi_ppb, pi_ki_term.
    rewrite (add_zero_l _ _ _ _ _ _ Zp D).
    apply (add_zero_r _ _ _ _ _ _ Zi D). }
  assert (K : (drift srv + pi_ki_term ki 0)%float = drift srv).
  { unfold pi_ki_term. apply (add_zero_r _ _ _ _ _ _ Zi D). }
  rewrite (tracking_within srv src dst 0 ts kp ki ret T);
    rewrite ?P; try assumption.
  rewrite K. reflexivity.
Qed.

Lemma servo_zero_offset_holds_witness :
  let srv := {| last_ts := 0; drift := 1250%float; state := SAMPLE_N |} in
  do_servo srv example_phc CLOCK_REALTIME 0 1000000000 KP KI 0
  = (set_last_ts srv 1000000000,
     Print_servo SAMPLE_N 1 0 1250%float
     :: clock_ppb CLOCK_REALTIME (- 1250)%float 0).
Proof.
  intros srv.
  apply (servo_zero_offset_holds srv example_phc CLOCK_REALTIME 1000000000
           KP KI 0 false 5497558138880000 (-42));
    vm_compute; reflexivity.
Defined.

(** ** The two adjustment helpers *)

(** X9.  For every [int64_t] step other than [INT64_MIN] (whose opposite
    does not fit the type): the seconds field fits [long], the two time
    fields add up to [ns], and they are the floor quotient and the
    non-negative remainder of [ns] by one second. *)
Theorem clock_step_floor_division (ns : Z) :
  min_signed < ns <= max_signed ->
  let sec := fst (clock_step_time ns) in
  let usec := snd (clock_step_time ns) in
  in_s64 sec
  /\ sec * 1000000000 + usec = ns
  /\ sec = ns / 1000000000
  /\ usec = ns mod 1000000000.
Proof.
  intros R sec usec.
  pose proof (clock_step_time_fraction ns) as F. fold usec in F.
  pose proof (clock_step_time_value ns R) as V. fold sec usec in V.
  split; [|split; [exact V|split]].
  - revert R V. unfold in_s64, min_signed, max_signed, half_modulus. lia.
  - apply (Z.div_unique ns 1000000000 sec usec); lia.
  - apply (Z.mod_unique ns 1000000000 sec usec); lia.
Qed.

(** A step back by 1.2 s: two seconds back, 0.8 s forward. *)
Lemma clock_step_floor_division_witness :
  fst (clock_step_time (-1200000000)) = -2
  /\ snd (clock_step_time (-1200000000)) = 800000000.
Proof.
  assert (R : min_signed < -1200000000 <= max_signed).
  { unfold min_signed, max_signed, half_modulus. simpl. lia. }
  destruct (clock_step_floor_division (-1200000000) R) as [_ [_ [Q M]]].
  split; [exact Q | exact M].
Defined.

(** X10.  Opposite corrections are submitted as opposite frequencies: when
    [clock_ppb] submits [freq = z] for [ppb], with [z] other than
    [LONG_MIN], it submits [freq = - z] for [- ppb]. *)
Theorem clock_ppb_opposite (clkid : Z) (ppb : float) (ret ret' : Z) (z : Z) :
  adjustments (clock_ppb clkid ppb ret)
  = [(clkid, {| tx_modes := ADJ_FREQUENCY; tx_freq := Some z;
                tx_time_tv_sec := 0; tx_time_tv_usec := 0 |})] ->
  z <> min_signed ->
  adjustments (clock_ppb clkid (- ppb)%float ret')
  = [(clkid, {| tx_modes := ADJ_FREQUENCY; tx_freq := Some (- z);
                tx_time_tv_sec := 0; tx_time_tv_usec := 0 |})].
Proof.
  rewrite !clock_ppb_adjustments. intros E N.
  injection E as E. rewrite mul_opp_l, (to_long_opp _ z E N). reflexivity.
Qed.

(** 1.5 ppb is submitted as 98, so -1.5 ppb is submitted as -98. *)
Lemma clock_ppb_opposite_witness :
  adjustments (clock_ppb CLOCK_REALTIME (- 1.5)%float 0)
  = [(CLOCK_REALTIME,
      {| tx_modes := ADJ_FREQUENCY; tx_freq := Some (- 98);
         tx_time_tv_sec := 0; tx_time_tv_usec := 0 |})].
Proof.
  apply (clock_ppb_opposite CLOCK_REALTIME 1.5%float 0 0 98).
  - vm_compute. reflexivity.
  - discriminate.
Defined.

(** ** The two samplers *)

Lemma read_pps_sample sec nsec :
  read_pps (Some (sec, nsec))
  = (Some (pps_offset_spec (to_u64 (sec * 1000000000 + nsec)),
           to_u64 (sec * 1000000000 + nsec)), []).
Proof.
  unfold read_pps. rewrite read_pps_timestamp.
  change NS_PER_SEC with 1000000000.
  set (ts := to_u64 (sec * 1000000000 + nsec)).
  change (1000000000 / 2) with 500000000.
  pose proof (Z.mod_pos_bound ts 1000000000 eq_refl) as B.
  assert (S : to_s64 (ts mod 1000000000) = ts mod 1000000000).
  { apply to_s64_small.
    unfold in_s64, min_signed, max_signed, half_modulus. lia. }
  rewrite S. unfold pps_offset_spec. rewrite Z.gtb_ltb.
  destruct (Z.ltb_spec 500000000 (ts mod 1000000000)); [|reflexivity].
  rewrite to_s64_small; [reflexivity|].
  unfold in_s64, min_signed, max_signed, half_modulus. lia.
Qed.

(** X11.  For an edge with [sec >= 0], [0 <= nsec < 1000000000] and a
    timestamp that fits [uint64_t], [read_pps] returns the timestamp
    [sec * 1000000000 + nsec] and an offset that depends on [nsec] alone:
    [nsec] itself up to half a second, [nsec - 1000000000] above. *)
Theorem read_pps_nanosecond_field (sec nsec : Z) :
  0 <= sec -> 0 <= nsec < 1000000000 ->
  sec * 1000000000 + nsec <= max_unsigned ->
  read_pps (Some (sec, nsec))
  = (Some (if 500000000 <? nsec then nsec - 1000000000 else nsec,
           sec * 1000000000 + nsec), []).
Proof.
  intros Hs Hn Hm. rewrite read_pps_sample.
  rewrite to_u64_small by (unfold in_u64; lia).
  unfold pps_offset_spec.
  replace ((sec * 1000000000 + nsec) mod 1000000000) with nsec;
    [reflexivity|].
  apply (Z.mod_unique _ _ sec nsec); lia.
Qed.

(** An edge one microsecond before a second boundary. *)
Lemma read_pps_nanosecond_field_witness :
  read_pps (Some (1700000000, 999999000))
  = (Some (-1000, 1700000000999999000), []).
Proof.
  apply (read_pps_nanosecond_field 1700000000 999999000).
  - lia.
  - lia.
  - unfold max_unsigned, modulus. simpl. lia.
Defined.

Lemma read_phc_sample clkid sysclk rdelay tsrc tdst :
  clkid <> CLOCK_INVALID ->
  read_phc clkid sysclk rdelay (Some tsrc) (Some tdst)
  = (Some (to_s64 (timespec_ns tdst - timespec_ns tsrc - rdelay),
           to_u64 (timespec_ns tdst)), []).
Proof.
  intros V. unfold read_phc.
  destruct (Z.eqb_spec clkid CLOCK_INVALID) as [I|_]; [contradiction|].
  rewrite read_phc_offset_bits, read_phc_timestamp_bits. reflexivity.
Qed.

(** X12.  The offset [read_phc] returns depends on the two readings only
    through their difference in nanoseconds: two pairs of readings with
    the same difference give the same offset, also where the 64-bit
    arithmetic wraps around and for readings whose [tv_nsec] is not
    normalised. *)
Theorem read_phc_offset_of_difference
    (clkid sysclk rdelay : Z) (tsrc tdst tsrc' tdst' : timespec) :
  timespec_ns tdst - timespec_ns tsrc = timespec_ns tdst' - timespec_ns tsrc' ->
  option_map fst (fst (read_phc clkid sysclk rdelay (Some tsrc) (Some tdst)))
  = option_map fst
      (fst (read_phc clkid sysclk rdelay (Some tsrc') (Some tdst'))).
Proof.
  intros D.
  destruct (Z.eq_dec clkid CLOCK_INVALID) as [I|V].
  - subst clkid. reflexivity.
  - rewrite !read_phc_sample by assumption. cbn [fst option_map].
    rewrite D. reflexivity.
Qed.

(** Eight nanoseconds apart, early in 1970 and where [tv_sec * 10^9]
    leaves [int64_t]. *)
Lemma read_phc_offset_of_difference_witness :
  option_map fst
    (fst (read_phc example_phc CLOCK_REALTIME 100
                   (Some {| tv_sec := 10; tv_nsec := 999999999 |})
                   (Some {| tv_sec := 11; tv_nsec := 7 |})))
  = option_map fst
      (fst (read_phc example_phc CLOCK_REALTIME 100
                     (Some {| tv_sec := 9223372036; tv_nsec := 854775807 |})
                     (Some {| tv_sec := 9223372036; tv_nsec := 854775815 |}))).
Proof.
  apply (read_phc_offset_of_difference example_phc CLOCK_REALTIME 100).
  reflexivity.
Defined.

(** ** The loop as a whole *)

Lemma read_quiet_adjustments clkid sysclk rdelay gsrc gdst fetch :
  adjustments (snd (read_phc clkid sysclk rdelay gsrc gdst)) = []
  /\ adjustments (snd (read_pps fetch)) = [].
Proof.
  split.
  - unfold read_phc. destruct (clkid =? CLOCK_INVALID); [reflexivity|].
    destruct gsrc; [|reflexivity]. destruct gdst; reflexivity.
  - destruct fetch as [[sec nsec]|]; reflexivity.
Qed.

Lemma loop_body_is_servo_call c fd srv e :
  fst (loop_body c fd srv e)
  = fst (servo_calls srv (cfg_src c) (cfg_dst c) (cfg_kp c) (cfg_ki c)
           (pass_samples_of c fd [e]))
  /\ adjustments (snd (loop_body c fd srv e))
     = adjustments
         (snd (servo_calls srv (cfg_src c) (cfg_dst c) (cfg_kp c) (cfg_ki c)
                 (pass_samples_of c fd [e]))).
Proof.
  unfold loop_body, pass_samples_of, pass_sample. cbn [flat_map].
  destruct (read_quiet_adjustments (cfg_src c) (cfg_dst c) (cfg_rdelay c)
              (src_gettime e) (dst_gettime e) (pps_fetch e)) as [Q P].
  destruct (fd >? 0).
  - destruct (read_pps (pps_fetch e)) as [[[po pt]|] out1];
      destruct (read_phc _ _ _ _ _) as [[[ho ht]|] out2];
      cbn [fst snd app servo_calls] in *;
      try (split; [reflexivity|]);
      rewrite ?adjustments_app, ?P; cbn [app adjustments flat_map];
      try assumption; try reflexivity.
    destruct (do_servo _ _ _ _ _ _ _ _) as [srv' out3].
    cbn [fst snd]. split; [reflexivity|].
    rewrite !adjustments_app, P, app_nil_r. cbn [app adjustments flat_map].
    fold (adjustments (out2 ++ Print_phc ho :: out3)).
    rewrite adjustments_app, Q. reflexivity.
  - destruct (read_phc _ _ _ _ _) as [[[ho ht]|] out2];
      cbn [fst snd app servo_calls] in *.
    + destruct (do_servo _ _ _ _ _ _ _ _) as [srv' out3].
      cbn [fst snd]. split; [reflexivity|].
      rewrite app_nil_r. cbn [adjustments flat_map app].
      fold (adjustments (out2 ++ Print_phc ho :: out3)).
      rewrite adjustments_app, Q. reflexivity.
    + split; [reflexivity|]. cbn [adjustments flat_map app]. exact Q.
Qed.

Lemma servo_calls_append srv src dst kp ki l1 l2 :
  servo_calls srv src dst kp ki (l1 ++ l2)
  = (fst (servo_calls (fst (servo_calls srv src dst kp ki l1))
                      src dst kp ki l2),
     snd (servo_calls srv src dst kp ki l1)
     ++ snd (servo_calls (fst (servo_calls srv src dst kp ki l1))
                         src dst kp ki l2)).
Proof.
  revert srv. induction l1 as [|[[o t] r] l1 IH]; intros srv.
  - cbn [app servo_calls fst snd].
    destruct (servo_calls srv src dst kp ki l2). reflexivity.
  - cbn [app servo_calls].
    destruct (do_servo srv src dst o t kp ki r) as [srv1 out1].
    rewrite IH.
    destruct (servo_calls srv1 src dst kp ki l1) as [srv2 out2].
    cbn [fst snd]. rewrite app_assoc. reflexivity.
Qed.

Lemma pass_samples_of_cons c fd e es :
  pass_samples_of c fd (e :: es)
  = pass_samples_of c fd [e] ++ pass_samples_of c fd es.
Proof.
  unfold pass_samples_of. cbn [flat_map]. rewrite app_nil_r. reflexivity.
Qed.

(** X13.  The loop is the servo run over the samples of the passes that
    do not end in [continue] (PPS samples with a PPS descriptor, samples of
    [read_phc] without): same servo, same adjustments submitted.  So the
    state advances by one per such pass and by nothing in the others. *)
Theorem run_loop_is_servo_over_samples
    (c : config) (fd : Z) (srv : servo) (es : list iter_env) :
  let samples := pass_samples_of c fd es in
  let calls :=
    servo_calls srv (cfg_src c) (cfg_dst c) (cfg_kp c) (cfg_ki c) samples in
  fst (run_loop c fd srv es) = fst calls
  /\ adjustments (snd (run_loop c fd srv es)) = adjustments (snd calls)
  /\ state (fst (run_loop c fd srv es))
     = Nat.iter (List.length samples) next_state (state srv).
Proof.
  cbv zeta.
  assert (H : fst (run_loop c fd srv es)
              = fst (servo_calls srv (cfg_src c) (cfg_dst c) (cfg_kp c)
                       (cfg_ki c) (pass_samples_of c fd es))
              /\ adjustments (snd (run_loop c fd srv es))
                 = adjustments
                     (snd (servo_calls srv (cfg_src c) (cfg_dst c) (cfg_kp c)
                             (cfg_ki c) (pass_samples_of c fd es)))).
  { revert srv. induction es as [|e es IH]; intros srv.
    - split; reflexivity.
    - rewrite pass_samples_of_cons, servo_calls_append.
      cbn [run_loop fst snd].
      destruct (loop_body_is_servo_call c fd srv e) as [B1 B2].
      destruct (loop_body c fd srv e) as [srv1 out1]. cbn [fst snd] in *.
      destruct (IH srv1) as [I1 I2].
      destruct (run_loop c fd srv1 es) as [srv2 out2]. cbn [fst snd] in *.
      rewrite <- B1. split; [exact I1|].
      rewrite !adjustments_app, B2, I2. reflexivity. }
  destruct H as [H1 H2]. split; [exact H1|]. split; [exact H2|].
  rewrite H1. apply servo_calls_state.
Qed.

Lemma sleeps_app out1 out2 : sleeps (out1 ++ out2) = sleeps out1 ++ sleeps out2.
Proof. apply flat_map_app. Qed.

Lemma settimes_app out1 out2 :
  settimes (out1 ++ out2) = settimes out1 ++ settimes out2.
Proof. apply flat_map_app. Qed.

Lemma do_servo_quiet srv src dst offset ts kp ki ret :
  sleeps (snd (do_servo srv src dst offset ts kp ki ret)) = []
  /\ settimes (snd (do_servo srv src dst offset ts kp ki ret)) = [].
Proof.
  destruct (do_servo_events srv src dst offset ts kp ki ret) as [rest [E R]].
  rewrite E.
  assert (P : forall ppb, sleeps (clock_ppb dst ppb ret) = []
                          /\ settimes (clock_ppb dst ppb ret) = []).
  { intros ppb. unfold clock_ppb. destruct (ret <? 0); split; reflexivity. }
  assert (Q : forall ns, sleeps (clock_step dst ns ret) = []
                         /\ settimes (clock_step dst ns ret) = []).
  { intros ns. rewrite clock_step_events.
    destruct (ret <? 0); split; reflexivity. }
  destruct (state srv).
  - destruct R as [ppb ->]. apply (P ppb).
  - subst rest. split; reflexivity.
  - destruct R as [ppb ->]. apply (P ppb).
  - subst rest. apply Q.
  - destruct R as [ppb ->]. apply (P ppb).
Qed.

Lemma read_pps_no_calls fetch :
  sleeps (snd (read_pps fetch)) = [] /\ settimes (snd (read_pps fetch)) = [].
Proof. destruct fetch as [[sec nsec]|]; split; reflexivity. Qed.

Lemma read_phc_no_calls clkid sysclk rdelay gsrc gdst :
  sleeps (snd (read_phc clkid sysclk rdelay gsrc gdst)) = []
  /\ settimes (snd (read_phc clkid sysclk rdelay gsrc gdst)) = [].
Proof.
  unfold read_phc. destruct (clkid =? CLOCK_INVALID); [split; reflexivity|].
  destruct gsrc; [|split; reflexivity].
  destruct gdst; split; reflexivity.
Qed.

Ltac split_calls :=
  repeat (rewrite sleeps_app || rewrite settimes_app
          || match goal with
             | |- context [sleeps (?e :: ?l)] =>
                 lazymatch l with
                 | [] => fail
                 | _ => change (sleeps (e :: l)) with (sleeps [e] ++ sleeps l)
                 end
             | |- context [settimes (?e :: ?l)] =>
                 lazymatch l with
                 | [] => fail
                 | _ => change (settimes (e :: l))
                          with (settimes [e] ++ settimes l)
                 end
             end).

Lemma loop_body_calls c fd srv e :
  sleeps (snd (loop_body c fd srv e)) = (if fd >? 0 then [] else [1000000])
  /\ settimes (snd (loop_body c fd srv e)) = [].
Proof.
  unfold loop_body.
  pose proof (read_phc_no_calls (cfg_src c) (cfg_dst c) (cfg_rdelay c)
                                (src_gettime e) (dst_gettime e)) as [Q1 Q2].
  pose proof (read_pps_no_calls (pps_fetch e)) as [P1 P2].
  destruct (fd >? 0).
  - destruct (read_pps (pps_fetch e)) as [[[po pt]|] out1];
      destruct (read_phc _ _ _ _ _) as [[[ho ht]|] out2];
      cbn [fst snd] in *; try (split; assumption).
    + pose proof (do_servo_quiet srv (cfg_src c) (cfg_dst c) po pt
                    (cfg_kp c) (cfg_ki c) (adjtime_ret e)) as [D1 D2].
      destruct (do_servo _ _ _ _ _ _ _ _) as [srv' out3]. cbn [fst snd] in *.
      split_calls. rewrite P1, P2, Q1, Q2, D1, D2. split; reflexivity.
    + split_calls. rewrite P1, P2, Q1, Q2. split; reflexivity.
  - destruct (read_phc _ _ _ _ _) as [[[ho ht]|] out2]; cbn [fst snd] in *.
    + pose proof (do_servo_quiet srv (cfg_src c) (cfg_dst c) ho ht
                    (cfg_kp c) (cfg_ki c) (adjtime_ret e)) as [D1 D2].
      destruct (do_servo _ _ _ _ _ _ _ _) as [srv' out3]. cbn [fst snd] in *.
      split_calls. rewrite Q1, Q2, D1, D2. split; reflexivity.
    + split_calls. rewrite Q1, Q2. split; reflexivity.
Qed.

Lemma run_loop_no_settime c fd srv es :
  settimes (snd (run_loop c fd srv es)) = [].
Proof.
  revert srv. induction es as [|e es IH]; intros srv; [reflexivity|].
  cbn [run_loop].
  destruct (loop_body_calls c fd srv e) as [_ T].
  destruct (loop_body c fd srv e) as [srv1 out1]. cbn [snd] in T.
  specialize (IH srv1).
  destruct (run_loop c fd srv1 es) as [srv2 out2]. cbn [snd] in *.
  rewrite settimes_app, T, IH. reflexivity.
Qed.

(** X14.  Without a PPS descriptor every pass of the loop sleeps once, for
    one second, whether it then samples or not; with one the loop never
    sleeps (it is paced by the PPS fetch alone). *)
Theorem run_loop_sleeps (c : config) (fd : Z) (srv : servo)
    (es : list iter_env) :
  sleeps (snd (run_loop c fd srv es))
  = (if fd >? 0 then [] else repeat 1000000 (List.length es)).
Proof.
  revert srv. induction es as [|e es IH]; intros srv.
  - destruct (fd >? 0); reflexivity.
  - cbn [run_loop].
    destruct (loop_body_calls c fd srv e) as [S _].
    destruct (loop_body c fd srv e) as [srv1 out1]. cbn [snd] in S.
    specialize (IH srv1).
    destruct (run_loop c fd srv1 es) as [srv2 out2]. cbn [snd] in *.
    rewrite sleeps_app, S, IH.
    destruct (fd >? 0); reflexivity.
Qed.

(** X15.  With a PPS descriptor the values read from the two clocks never
    reach the servo: two passes with the same PPS fetch, in both of which
    the two clock reads succeed, leave the same servo whatever the readings
    and the result of the adjustment are. *)
Theorem pps_pass_ignores_phc_reading
    (c : config) (fd : Z) (srv : servo) (fetch : option (Z * Z))
    (tsrc tdst tsrc' tdst' : timespec) (ret ret' : Z) :
  fd > 0 ->
  fst (loop_body c fd srv
         {| pps_fetch := fetch; src_gettime := Some tsrc;
            dst_gettime := Some tdst; adjtime_ret := ret |})
  = fst (loop_body c fd srv
           {| pps_fetch := fetch; src_gettime := Some tsrc';
              dst_gettime := Some tdst'; adjtime_ret := ret' |}).
Proof.
  intros F.
  assert (G : (fd >? 0) = true) by (apply Z.gtb_lt; lia).
  unfold loop_body. rewrite G.
  cbn [pps_fetch src_gettime dst_gettime adjtime_ret].
  destruct (read_pps fetch) as [[[po pt]|] out1]; [|reflexivity].
  unfold read_phc.
  destruct (cfg_src c =? CLOCK_INVALID); [reflexivity|].
  pose proof (do_servo_servo_independent srv (cfg_src c) (cfg_src c)
                (cfg_dst c) (cfg_dst c) po pt (cfg_kp c) (cfg_ki c) ret ret')
    as D.
  destruct (do_servo srv (cfg_src c) (cfg_dst c) po pt (cfg_kp c) (cfg_ki c)
                     ret) as [s1 o1].
  destruct (do_servo srv (cfg_src c) (cfg_dst c) po pt (cfg_kp c) (cfg_ki c)
                     ret') as [s2 o2].
  exact D.
Qed.

Lemma pps_pass_ignores_phc_reading_witness :
  let c := {| cfg_kp := KP; cfg_ki := KI;
              cfg_device := Some "/dev/pps0"%string;
              cfg_src := example_phc; cfg_dst := CLOCK_REALTIME;
              cfg_rdelay := 0 |} in
  let srv := {| last_ts := 0; drift := 0%float; state := SAMPLE_N |} in
  fst (loop_body c 3 srv
         {| pps_fetch := Some (10, 250);
            src_gettime := Some {| tv_sec := 10; tv_nsec := 0 |};
            dst_gettime := Some {| tv_sec := 10; tv_nsec := 300 |};
            adjtime_ret := 0 |})
  = fst (loop_body c 3 srv
           {| pps_fetch := Some (10, 250);
              src_gettime := Some {| tv_sec := 99; tv_nsec := 1 |};
              dst_gettime := Some {| tv_sec := 5; tv_nsec := 2 |};
              adjtime_ret := -1 |}).
Proof.
  intros c srv.
  apply (pps_pass_ignores_phc_reading c 3 srv). lia.
Defined.

(** ** [main] after the option loop *)

(** X17.  When [main] reaches the loop, the destination clock has been set
    exactly once if there is a source clock, from what the read of the
    source stored (nothing defined when that read failed, the call is made
    all the same), and never if there is none; the loop itself never sets
    a clock. *)
Theorem main_sets_destination_once
    (c : config) (s : startup_env) (es : list iter_env) (srv : servo) :
  fst (main c s es) = Looping srv ->
  settimes (snd (main c s es))
  = (if cfg_src c =? CLOCK_INVALID then []
     else [(cfg_dst c, now_gettime s)]).
Proof.
  unfold main.
  destruct (negb _ || _); [discriminate|].
  assert (P : forall fd,
             settimes
               (snd (let '(srv0, out) := run_loop c fd servo_init es in
                     (Looping srv0,
                      (if negb (cfg_src c =? CLOCK_INVALID)
                       then match now_gettime s with
                            | Some _ => []
                            | None => [Stderr "clock_gettime"]
                            end
                            ++ Clock_settime (cfg_dst c) (now_gettime s)
                            :: (if settime_ret s =? 0 then []
                                else [Stderr "clock_settime"])
                       else []) ++ out)))
             = (if cfg_src c =? CLOCK_INVALID then []
                else [(cfg_dst c, now_gettime s)])).
  { intros fd. pose proof (run_loop_no_settime c fd servo_init es) as L.
    destruct (run_loop c fd servo_init es) as [srv0 out]. cbn [snd] in *.
    rewrite settimes_app, L, app_nil_r.
    destruct (cfg_src c =? CLOCK_INVALID); [reflexivity|]. cbn [negb].
    destruct (now_gettime s); destruct (settime_ret s =? 0); reflexivity. }
  destruct (cfg_device c) as [device|].
  - destruct (open_ret s <? 0); [discriminate|]. intros _. apply P.
  - intros _. apply P.
Qed.

(** A source whose first read fails: the destination is set all the same. *)
Lemma main_sets_destination_once_witness :
  let c := {| cfg_kp := KP; cfg_ki := KI; cfg_device := None;
              cfg_src := example_phc; cfg_dst := CLOCK_REALTIME;
              cfg_rdelay := 0 |} in
  let s := {| open_ret := 0; now_gettime := None; settime_ret := -1 |} in
  settimes (snd (main c s pps_only_passes)) = [(CLOCK_REALTIME, None)].
Proof.
  intros c s.
  apply (main_sets_destination_once c s pps_only_passes
           (fst (run_loop c 0 servo_init pps_only_passes))).
  reflexivity.
Defined.

Lemma run_loop_without_device c fd srv es :
  run_loop (without_device c) fd srv es = run_loop c fd srv es.
Proof.
  revert srv. induction es as [|e es IH]; intros srv; [reflexivity|].
  cbn [run_loop].
  change (loop_body (without_device c) fd srv e) with (loop_body c fd srv e).
  destruct (loop_body c fd srv e) as [srv1 out1]. rewrite IH. reflexivity.
Qed.

(** X18.  A PPS device that [open] returns as descriptor 0 is not used:
    with a source clock, the program then behaves in every respect as if
    no PPS device had been given. *)
Theorem main_descriptor_zero_is_no_device
    (c : config) (s : startup_env) (es : list iter_env) :
  cfg_src c <> CLOCK_INVALID ->
  cfg_device c <> None ->
  open_ret s = 0 ->
  main c s es = main (without_device c) s es.
Proof.
  intros V D O. unfold main.
  cbn [without_device cfg_device cfg_src cfg_dst is_configured].
  destruct (cfg_device c) as [device|]; [|contradiction].
  cbn [is_configured]. rewrite O.
  destruct (Z.eqb_spec (cfg_src c) CLOCK_INVALID) as [I|_]; [contradiction|].
  cbn [negb orb].
  destruct (cfg_dst c =? CLOCK_INVALID); [reflexivity|].
  change (0 <? 0) with false. cbv iota.
  rewrite run_loop_without_device. reflexivity.
Qed.

Lemma main_descriptor_zero_is_no_device_witness :
  let c := {| cfg_kp := KP; cfg_ki := KI;
              cfg_device := Some "/dev/pps0"%string;
              cfg_src := example_phc; cfg_dst := CLOCK_REALTIME;
              cfg_rdelay := 0 |} in
  let s := {| open_ret := 0; now_gettime := None; settime_ret := 0 |} in
  main c s pps_only_passes = main (without_device c) s pps_only_passes.
Proof.
  intros c s.
  apply (main_descriptor_zero_is_no_device c s pps_only_passes);
    [discriminate | discriminate | reflexivity].
Defined.

(** ** The option loop *)

Section OptionLoopProperties.

Variable FD_TO_CLOCKID : Z -> Z.

Lemma option_case_stop o c :
  is_stop o = true ->
  option_case FD_TO_CLOCKID o c
  = (Returned (if is_opt_h o then 0 else -1), [Print_usage]).
Proof. destruct o; try discriminate; reflexivity. Qed.

Lemma option_case_go o c :
  is_stop o = false ->
  exists c' out, option_case FD_TO_CLOCKID o c = (Parsed c', out).
Proof.
  destruct o; try discriminate; intros _; cbn [option_case];
    try (unfold clock_open; destruct (fd <? 0)); eauto.
Qed.

Lemma option_loop_app pre post c :
  existsb is_stop pre = false ->
  exists c' out,
    option_loop FD_TO_CLOCKID pre c = (Parsed c', out)
    /\ option_loop FD_TO_CLOCKID (pre ++ post) c
       = (fst (option_loop FD_TO_CLOCKID post c'),
          out ++ snd (option_loop FD_TO_CLOCKID post c')).
Proof.
  revert c. induction pre as [|o pre IH]; intros c N.
  - exists c, []. split; [reflexivity|].
    cbn [app]. destruct (option_loop FD_TO_CLOCKID post c). reflexivity.
  - cbn [existsb] in N. apply orb_false_elim in N as [No Npre].
    destruct (option_case_go o c No) as [c1 [out1 E1]].
    destruct (IH c1 Npre) as [c' [out [E2 E3]]].
    exists c', (out1 ++ out). cbn [app option_loop]. rewrite E1, E2, E3.
    split; [reflexivity|]. rewrite app_assoc. reflexivity.
Qed.

(** X19.  The first [-h] or unrecognised option ends the program: what
    comes after it on the command line, and everything the system would
    answer later, has no effect; the status is 0 for [-h] and -1
    otherwise, the usage text is the last thing printed, and the options
    before it have already been acted on (a device named by [-c] or [-s]
    has been opened, and a failure to open it reported). *)
Theorem main_argv_stops_at_help (pre : list getopt_result)
    (stop : getopt_result) :
  is_stop stop = true ->
  existsb is_stop pre = false ->
  exists out,
    snd (option_loop FD_TO_CLOCKID pre config_init) = out
    /\ forall post s es,
        main_argv FD_TO_CLOCKID (pre ++ stop :: post) s es
        = (Exited (if is_opt_h stop then 0 else -1), out ++ [Print_usage]).
Proof.
  intros S N.
  destruct (option_loop_app pre [] config_init N) as [c' [out [E1 _]]].
  exists out. rewrite E1. split; [reflexivity|]. intros post s es.
  destruct (option_loop_app pre (stop :: post) config_init N)
    as [c'' [out' [E1' E2]]].
  rewrite E1 in E1'. injection E1' as <- <-.
  unfold main_argv. rewrite E2. cbn [option_loop fst snd].
  rewrite (option_case_stop stop c' S). reflexivity.
Qed.

Lemma option_loop_keeps_dst opts c :
  existsb is_stop opts = false ->
  existsb is_opt_c opts = false ->
  exists c' out,
    option_loop FD_TO_CLOCKID opts c = (Parsed c', out)
    /\ cfg_dst c' = cfg_dst c.
Proof.
  revert c. induction opts as [|o opts IH]; intros c S C.
  - exists c, []. split; reflexivity.
  - cbn [existsb] in S, C.
    apply orb_false_elim in S as [So S]. apply orb_false_elim in C as [Co C].
    assert (E : exists c1 out1,
               option_case FD_TO_CLOCKID o c = (Parsed c1, out1)
               /\ cfg_dst c1 = cfg_dst c).
    { destruct o; try discriminate; cbn [option_case];
        try (unfold clock_open; destruct (fd <? 0)); eauto. }
    destruct E as [c1 [out1 [E1 D1]]].
    destruct (IH c1 S C) as [c' [out [E2 D2]]].
    exists c', (out1 ++ out). cbn [option_loop]. rewrite E1, E2.
    split; [reflexivity|]. congruence.
Qed.

(** X20.  When the last [-c] option names a device that cannot be opened
    and no option is [-h] or unrecognised, the program reports the device,
    prints the usage text last and returns -1 without entering the loop,
    whatever the other options are. *)
Theorem main_argv_unopened_destination
    (pre post : list getopt_result) (device : string) (fd : Z)
    (s : startup_env) (es : list iter_env) :
  fd < 0 ->
  existsb is_stop (pre ++ post) = false ->
  existsb is_opt_c post = false ->
  exists out,
    main_argv FD_TO_CLOCKID (pre ++ Opt_c device fd :: post) s es
    = (Exited (-1), out ++ [Print_usage])
    /\ In (Stderr ("cannot open " ++ device)) out.
Proof.
  intros F S C. rewrite existsb_app in S.
  apply orb_false_elim in S as [Spre Spost].
  destruct (option_loop_app pre (Opt_c device fd :: post) config_init Spre)
    as [c1 [out1 [E1 E2]]].
  unfold main_argv. rewrite E2. cbn [option_loop option_case].
  unfold clock_open. assert (L : (fd <? 0) = true) by (apply Z.ltb_lt; lia).
  rewrite L.
  set (c2 := {| cfg_kp := cfg_kp c1; cfg_ki := cfg_ki c1;
                cfg_device := cfg_device c1; cfg_src := cfg_src c1;
                cfg_dst := CLOCK_INVALID; cfg_rdelay := cfg_rdelay c1 |}).
  destruct (option_loop_keeps_dst post c2 Spost C) as [c3 [out3 [E3 D3]]].
  rewrite E3. cbn [fst snd].
  assert (M : main c3 s es = (Exited (-1), [Print_usage])).
  { unfold main. rewrite D3. cbn [c2 cfg_dst]. rewrite orb_true_r.
    reflexivity. }
  rewrite M.
  exists (out1 ++ [Stderr ("cannot open " ++ device)] ++ out3).
  split.
  - rewrite <- !app_assoc. reflexivity.
  - apply in_or_app. right. left. reflexivity.
Qed.

Lemma main_exit_status c s es status :
  fst (main c s es) = Exited status -> status = -1.
Proof.
  unfold main.
  destruct (negb _ || _); [intros E; injection E; auto|].
  destruct (cfg_device c) as [device|].
  - destruct (open_ret s <? 0); [intros E; injection E; auto|].
    destruct (run_loop c (open_ret s) servo_init es). discriminate.
  - destruct (run_loop c 0 servo_init es). discriminate.
Qed.

Lemma option_loop_status opts c status :
  fst (option_loop FD_TO_CLOCKID opts c) = Returned status ->
  status = -1 \/ (status = 0 /\ existsb is_opt_h opts = true).
Proof.
  revert c. induction opts as [|o opts IH]; intros c; [discriminate|].
  cbn [option_loop existsb].
  destruct (is_stop o) eqn:S.
  - rewrite (option_case_stop o c S). cbn [fst]. intros E.
    injection E as <-. destruct o; try discriminate; cbn; auto.
  - destruct (option_case_go o c S) as [c' [out E']]. rewrite E'.
    specialize (IH c').
    destruct (option_loop FD_TO_CLOCKID opts c') as [r out']. cbn [fst] in *.
    intros E. destruct (IH E) as [H|[H1 H2]]; [auto|].
    right. split; [exact H1|]. rewrite H2. apply orb_true_r.
Qed.

(** X21.  Whenever the program returns, the value is -1 or 0, and it is 0
    only when [-h] was among the options: every error ends in a non-zero
    exit status. *)
Theorem main_argv_exit_status (opts : list getopt_result)
    (s : startup_env) (es : list iter_env) (status : Z) :
  fst (main_argv FD_TO_CLOCKID opts s es) = Exited status ->
  status = -1 \/ (status = 0 /\ existsb is_opt_h opts = true).
Proof.
  unfold main_argv.
  pose proof (option_loop_status opts config_init) as P.
  destruct (option_loop FD_TO_CLOCKID opts config_init) as [[c|st] out].
  - pose proof (main_exit_status c s es status) as M.
    destruct (main c s es) as [r out']. cbn [fst] in *. auto.
  - cbn [fst] in *. intros E. injection E as <-. apply P. reflexivity.
Qed.

Lemma option_case_quiet o c :
  servo_called (snd (option_case FD_TO_CLOCKID o c)) = false
  /\ clock_adjusted (snd (option_case FD_TO_CLOCKID o c)) = false.
Proof.
  destruct o; cbn [option_case];
    try (unfold clock_open; destruct (fd <? 0)); split; reflexivity.
Qed.

Lemma option_loop_quiet opts c :
  servo_called (snd (option_loop FD_TO_CLOCKID opts c)) = false
  /\ clock_adjusted (snd (option_loop FD_TO_CLOCKID opts c)) = false.
Proof.
  revert c. induction opts as [|o opts IH]; intros c; [split; reflexivity|].
  cbn [option_loop].
  destruct (option_case_quiet o c) as [S A].
  destruct (option_case FD_TO_CLOCKID o c) as [[c'|status] out];
    cbn [snd] in *; [|split; assumption].
  destruct (IH c') as [S' A'].
  destruct (option_loop FD_TO_CLOCKID opts c') as [r out']. cbn [snd] in *.
  rewrite servo_called_app, clock_adjusted_app, S, A, S', A'.
  split; reflexivity.
Qed.

Lemma option_loop_returned_usage opts c status :
  fst (option_loop FD_TO_CLOCKID opts c) = Returned status ->
  exists out,
    snd (option_loop FD_TO_CLOCKID opts c) = out ++ [Print_usage].
Proof.
  revert c. induction opts as [|o opts IH]; intros c; [discriminate|].
  cbn [option_loop].
  destruct (is_stop o) eqn:S.
  - rewrite (option_case_stop o c S). intros _. exists []. reflexivity.
  - destruct (option_case_go o c S) as [c' [out E']]. rewrite E'.
    specialize (IH c').
    destruct (option_loop FD_TO_CLOCKID opts c') as [r out'].
    cbn [fst snd] in *.
    intros E. destruct (IH E) as [out2 ->].
    exists (out ++ out2). apply app_assoc.
Qed.

(** C9 (as amended).  When no [-h] option is given: if the option loop
    runs to its end and the destination handle is then [CLOCK_INVALID], or
    no PPS device is given and the source handle is [CLOCK_INVALID], the
    process prints what the options have already reported, then the usage
    text, and returns -1, a non-zero exit status (255), without entering
    the loop; and if the option loop stops on an unrecognised option the
    process ends in the same way, usage last and -1.  In neither case is
    the servo called or a clock adjusted. *)
Theorem main_argv_rejects_bad_configuration
    (opts : list getopt_result) (s : startup_env) (es : list iter_env) :
  existsb is_opt_h opts = false ->
  let parse := option_loop FD_TO_CLOCKID opts config_init in
  let run := main_argv FD_TO_CLOCKID opts s es in
  (match fst parse with
   | Parsed c =>
       cfg_dst c = CLOCK_INVALID
       \/ (cfg_device c = None /\ cfg_src c = CLOCK_INVALID) ->
       run = (Exited (-1), snd parse ++ [Print_usage])
       /\ servo_called (snd run) = false
       /\ clock_adjusted (snd run) = false
   | Returned status =>
       run = (Exited (-1), snd parse)
       /\ (exists out, snd parse = out ++ [Print_usage])
       /\ servo_called (snd run) = false
       /\ clock_adjusted (snd run) = false
   end)
  /\ exit_status (-1) = 255
  /\ exit_status (-1) <> 0.
Proof.
  intros H parse run. split; [|split; [reflexivity|discriminate]].
  subst parse run. unfold main_argv.
  pose proof (option_loop_status opts config_init) as St.
  pose proof (option_loop_returned_usage opts config_init) as U.
  destruct (option_loop_quiet opts config_init) as [Qs Qa].
  destruct (option_loop FD_TO_CLOCKID opts config_init) as [[c|status] out];
    cbn [fst snd] in *.
  - intros B.
    destruct (main_rejects_bad_configuration c s es B) as [M _].
    rewrite M. cbn [snd].
    rewrite servo_called_app, clock_adjusted_app, Qs, Qa.
    repeat split.
  - destruct (St status eq_refl) as [->|[_ Hh]]; [|congruence].
    split; [reflexivity|]. split; [exact (U (-1) eq_refl)|].
    split; assumption.
Qed.

End OptionLoopProperties.

(** [-c] on a device that cannot be opened, then [-h]. *)
Lemma main_argv_stops_at_help_witness :
  main_argv example_fd_to_clockid
            [Opt_c "/dev/ptp9" (-1); Opt_h; Opt_s "/dev/ptp0" 3]
            {| open_ret := 3; now_gettime := None; settime_ret := 0 |} []
  = (Exited 0, [Stderr "cannot open /dev/ptp9"; Print_usage]).
Proof.
  destruct (main_argv_stops_at_help example_fd_to_clockid
              [Opt_c "/dev/ptp9"%string (-1)] Opt_h eq_refl eq_refl)
    as [out [E H]].
  specialize (H [Opt_s "/dev/ptp0"%string 3]
                {| open_ret := 3; now_gettime := None; settime_ret := 0 |}
                []).
  rewrite <- E in H. exact H.
Defined.

Lemma main_argv_unopened_destination_witness :
  exists out,
    main_argv example_fd_to_clockid
              [Opt_s "/dev/ptp0" 3; Opt_c "/dev/ptp9" (-1); Opt_P 1%float]
              {| open_ret := 3; now_gettime := None; settime_ret := 0 |} []
    = (Exited (-1), out ++ [Print_usage])
    /\ In (Stderr "cannot open /dev/ptp9") out.
Proof.
  apply (main_argv_unopened_destination example_fd_to_clockid
           [Opt_s "/dev/ptp0"%string 3] [Opt_P 1%float]
           "/dev/ptp9"%string (-1)).
  - lia.
  - reflexivity.
  - reflexivity.
Defined.

Lemma main_argv_exit_status_witness :
  0 = -1 \/ (0 = 0 /\ existsb is_opt_h [Opt_P 2%float; Opt_h] = true).
Proof.
  apply (main_argv_exit_status example_fd_to_clockid [Opt_P 2%float; Opt_h]
           {| open_ret := 3; now_gettime := None; settime_ret := 0 |} [] 0).
  reflexivity.
Defined.

(** [-c] on a device that cannot be opened, then a source that opens. *)
Lemma main_argv_rejects_bad_configuration_witness :
  main_argv example_fd_to_clockid
            [Opt_c "/dev/ptp9" (-1); Opt_s "/dev/ptp0" 3]
            {| open_ret := 3; now_gettime := None; settime_ret := 0 |}
            pps_only_passes
  = (Exited (-1), [Stderr "cannot open /dev/ptp9"; Print_usage]).
Proof.
  exact (proj1 (proj1 (main_argv_rejects_bad_configuration
                         example_fd_to_clockid
                         [Opt_c "/dev/ptp9"%string (-1);
                          Opt_s "/dev/ptp0"%string 3]
                         {| open_ret := 3; now_gettime := None;
                            settime_ret := 0 |}
                         pps_only_passes eq_refl)
                      (or_introl eq_refl))).
Defined.

(** C9, with [-h].  After [-c] on a device that cannot be opened the
    destination handle is [CLOCK_INVALID], and with [-h] alone neither a
    PPS device nor a source is configured; in both runs the process prints
    the usage text and returns 0. *)
Lemma main_argv_help_counterexample :
  let s := {| open_ret := 3; now_gettime := None; settime_ret := 0 |} in
  (exists c out,
      option_loop example_fd_to_clockid [Opt_c "/dev/ptp9" (-1)] config_init
      = (Parsed c, out)
      /\ cfg_dst c = CLOCK_INVALID)
  /\ main_argv example_fd_to_clockid [Opt_c "/dev/ptp9" (-1); Opt_h] s
               pps_only_passes
     = (Exited 0, [Stderr "cannot open /dev/ptp9"; Print_usage])
  /\ main_argv example_fd_to_clockid [Opt_h] s pps_only_passes
     = (Exited 0, [Print_usage])
  /\ exit_status 0 = 0.
Proof.
  intros s. split; [|repeat split].
  eexists. eexists. split; reflexivity.
Qed.
